(** * Live file-state reconciliation and sandbox lifecycle

    A shallow embedding of the reconciliation core of the builder
    front end:

    - [BuilderView]: the two [useEffect] bodies of
      [src/components/builder/BuilderView.tsx] that maintain [filesMap]
      (the Reconciled File Map);
    - [Preview]: [scanForErrors] / [processLog], [setupContainer] and the
      file-sync effect of the two [WebContainerPreview] variants
      ([src/unnamed/part_002] and [src/unnamed/part_003]).

    Conventions.  A [Record<string, string>] is a [gmap string string]
    holding the object's own properties.  The diff of the file sync is
    modelled with the members every object inherits from
    [Object.prototype]: its reads ([read]), its [in] test ([in_operator])
    and its assignment ([assign]) see them.  In [BuilderView] paths are
    assumed not to be names of such members.
    [Object.keys] enumerates a map in the map's own order, which stands
    for JavaScript's insertion order; nothing below depends on it.
    JavaScript strings are Rocq strings, one character per code unit.
    [console.log] / [console.error] calls are not modelled. *)

From Stdlib Require Import ZArith Lia Bool Ascii String.
From stdpp Require Import gmap strings list fin_maps pretty.

Local Open Scope string_scope.

(** ** JavaScript values shared by both components *)

Abbreviation FileMap := (gmap string string).

(** An object together with its identity: [===] on objects compares
    [ref], never [value]. *)
Record Obj (A : Type) : Type := mkObj { ref : nat; value : A }.
Arguments mkObj {A} ref value.
Arguments ref {A} o.
Arguments value {A} o.

(** [x === y] for two object-or-null values. *)
Definition same_ref {A : Type} (x y : option (Obj A)) : bool :=
  match x, y with
  | None, None => true
  | Some a, Some b => Nat.eqb (ref a) (ref b)
  | _, _ => false
  end.

(** Truthiness of a string ([""] is falsy). *)
Definition truthy_string (s : string) : bool := negb (String.eqb s "").

(** Truthiness of [obj[k]] or of an optional string field: [undefined]
    and [""] are falsy. *)
Definition truthy (v : option string) : bool :=
  match v with
  | Some s => truthy_string s
  | None => false
  end.

(** [a === b] where both sides are a string or [undefined]. *)
Definition strict_eq (a b : option string) : bool := bool_decide (a = b).

(** The property names an object created by a literal or a spread
    inherits from [Object.prototype]. *)
Definition Object_prototype : list string :=
  ["constructor"; "__defineGetter__"; "__defineSetter__"; "hasOwnProperty";
   "__lookupGetter__"; "__lookupSetter__"; "isPrototypeOf"; "propertyIsEnumerable";
   "toString"; "valueOf"; "__proto__"; "toLocaleString"].

(** [k in m]: true of an own key and of an inherited name. *)
Definition in_operator (k : string) (m : FileMap) : bool :=
  bool_decide (is_Some (m !! k)) || bool_decide (k ∈ Object_prototype).

(** What the read [m[k]] of an object yields: an own string, a member
    inherited from [Object.prototype] (a function or an object, never
    [===] to a string), or [undefined]. *)
Inductive Read : Type :=
| js_string (s : string)
| js_member (name : string)
| js_undefined.

#[global] Instance Read_eq_dec : EqDecision Read.
Proof. solve_decision. Defined.

(** [m[k]]. *)
Definition read (m : FileMap) (k : string) : Read :=
  match m !! k with
  | Some s => js_string s
  | None => if bool_decide (k ∈ Object_prototype) then js_member k else js_undefined
  end.

(** [m[k] = v] for a string [v]: under the name ["__proto__"], unless it
    is an own key, the assignment reaches the inherited setter, which
    ignores a string. *)
Definition assign (k v : string) (m : FileMap) : FileMap :=
  if String.eqb k "__proto__" && negb (bool_decide (is_Some (m !! k)))
  then m
  else <[k := v]> m.

(** Truthiness of what a read yields: a function or an object is truthy. *)
Definition truthy_read (r : Read) : bool :=
  match r with
  | js_string s => truthy_string s
  | js_member _ => true
  | js_undefined => false
  end.

Definition Object_entries (m : FileMap) : list (string * string) := map_to_list m.
Definition Object_keys (m : FileMap) : list string := (map_to_list m).*1.

(** ** BuilderView.tsx: the Reconciled File Map *)

Module BuilderView.

(** Modelled from the spec: the [FileNode] type of [@/types/types], which is
    not among the sources.  Section 3 gives it a [path], a [type] that is
    a file or a directory, an optional [content] and optional
    [children]. *)
Inductive NodeType : Type := file | directory.

#[local] Unset Elimination Schemes.
Inductive FileNode : Type :=
  mkNode (type : NodeType) (path : string) (content : option string)
         (children : option (list FileNode)).
#[local] Set Elimination Schemes.

Definition type (n : FileNode) : NodeType := let 'mkNode t _ _ _ := n in t.
Definition path (n : FileNode) : string := let 'mkNode _ p _ _ := n in p.
Definition content (n : FileNode) : option string := let 'mkNode _ _ c _ := n in c.
Definition children (n : FileNode) : option (list FileNode) :=
  let 'mkNode _ _ _ ch := n in ch.

Definition is_file (t : NodeType) : bool :=
  match t with file => true | directory => false end.

(** The payloads of the three "last event" slots of [useWebSocket]. *)
Record ReceivedFile : Type := mkReceived { r_path : string; r_content : string }.
Record DeletedPath : Type := mkDeleted { d_path : string }.
Record RenamedFile : Type := mkRenamed { oldPath : string; newPath : string }.

Record Slots : Type := mkSlots {
  lastReceivedFile : option (Obj ReceivedFile);
  lastDeletedPath : option (Obj DeletedPath);
  lastRenamedFile : option (Obj RenamedFile)
}.

(** The [filesMap] state cell and the three [useRef] cells. *)
Record View : Type := mkView {
  filesMap : Obj FileMap;
  prevLastReceivedFileRef : option (Obj ReceivedFile);
  prevLastDeletedPathRef : option (Obj DeletedPath);
  prevLastRenamedFileRef : option (Obj RenamedFile);
  nextRef : nat
}.

(** [useState({})] and [useRef(null)] three times. *)
Definition initialView : View :=
  mkView (mkObj 0 ∅) None None None 1.

(** One body of the rename branch (lines 112-116): the working copy and
    the [hasChanges] flag after it.  The read [nextFilesMap[oldPath]] is
    taken on the own keys: [oldPath] is assumed not to name a member of
    [Object.prototype]. *)
Definition renameBranch (r : RenamedFile) (nextFilesMap : FileMap) (hasChanges : bool)
  : FileMap * bool :=
  if truthy (nextFilesMap !! oldPath r) then
    match nextFilesMap !! oldPath r with
    | Some v => (delete (oldPath r) (<[newPath r := v]> nextFilesMap), true)
    | None => (nextFilesMap, hasChanges)
    end
  else (nextFilesMap, hasChanges).

(** The effect of lines 84-123.  [setFilesMap(prev => ...)] runs the
    updater on the current state; the updater returns either the copy
    [nextFilesMap] (a new object) or [prev] itself. *)
Definition syncFilesMap (sl : Slots) (v : View) : View :=
  match lastReceivedFile sl, lastDeletedPath sl, lastRenamedFile sl with
  | None, None, None => v
  | _, _, _ =>
    let prev := filesMap v in
    let nextFilesMap := value prev in
    let hasChanges := false in
    (* Sync new/updated files *)
    let '(nextFilesMap, hasChanges, refReceived) :=
      if negb (same_ref (lastReceivedFile sl) (prevLastReceivedFileRef v)) then
        match lastReceivedFile sl with
        | Some f =>
            (<[r_path (value f) := r_content (value f)]> nextFilesMap, true,
             lastReceivedFile sl)
        | None => (nextFilesMap, hasChanges, lastReceivedFile sl)
        end
      else (nextFilesMap, hasChanges, prevLastReceivedFileRef v) in
    (* Sync deletions *)
    let '(nextFilesMap, hasChanges, refDeleted) :=
      if negb (same_ref (lastDeletedPath sl) (prevLastDeletedPathRef v)) then
        match lastDeletedPath sl with
        | Some d => (delete (d_path (value d)) nextFilesMap, true, lastDeletedPath sl)
        | None => (nextFilesMap, hasChanges, lastDeletedPath sl)
        end
      else (nextFilesMap, hasChanges, prevLastDeletedPathRef v) in
    (* Sync renames *)
    let '(nextFilesMap, hasChanges, refRenamed) :=
      if negb (same_ref (lastRenamedFile sl) (prevLastRenamedFileRef v)) then
        match lastRenamedFile sl with
        | Some r =>
            let '(m, h) := renameBranch (value r) nextFilesMap hasChanges in
            (m, h, lastRenamedFile sl)
        | None => (nextFilesMap, hasChanges, lastRenamedFile sl)
        end
      else (nextFilesMap, hasChanges, prevLastRenamedFileRef v) in
    mkView (if hasChanges then mkObj (nextRef v) nextFilesMap else prev)
           refReceived refDeleted refRenamed (S (nextRef v))
  end.

(** [traverse] of lines 129-136, threading the [newFiles] object that
    the closure mutates.  [visit] is the [forEach] callback. *)
Fixpoint visit (node : FileNode) (newFiles : FileMap) : FileMap :=
  match node with
  | mkNode t p c ch =>
      let newFiles :=
        if is_file t && truthy c then
          match c with Some s => <[p := s]> newFiles | None => newFiles end
        else newFiles in
      match ch with
      | Some nodes =>
          (fix traverse (nodes : list FileNode) (newFiles : FileMap) : FileMap :=
             match nodes with
             | [] => newFiles
             | n :: rest => traverse rest (visit n newFiles)
             end) nodes newFiles
      | None => newFiles
      end
  end.

Definition traverse (nodes : list FileNode) (newFiles : FileMap) : FileMap :=
  fold_left (fun acc n => visit n acc) nodes newFiles.

(** The updater of lines 139-148.  [fresh] is the identity of the object
    built by the spread [{ ...prev, ...newFiles }]. *)
Definition mergeUpdater (newFiles : FileMap) (fresh : nat) (prev : Obj FileMap)
  : Obj FileMap :=
  let updated := mkObj fresh (newFiles ∪ value prev) in
  let keys1 := Object_keys (value prev) in
  let keys2 := Object_keys (value updated) in
  if Nat.eqb (length keys1) (length keys2)
     && forallb (fun k => strict_eq (value prev !! k) (value updated !! k)) keys1
  then prev
  else updated.

(** The effect of lines 126-150. *)
Definition mergeFileTree (fileTree : list FileNode) (v : View) : View :=
  if Nat.ltb 0 (length fileTree) then
    let newFiles := traverse fileTree ∅ in
    mkView (mergeUpdater newFiles (nextRef v) (filesMap v))
           (prevLastReceivedFileRef v) (prevLastDeletedPathRef v)
           (prevLastRenamedFileRef v) (S (nextRef v))
  else v.

(** React re-runs an effect that lists [files] among its dependencies
    only when the new state is not [Object.is]-equal to the old one. *)
Definition triggersSync (before after : View) : bool :=
  negb (Nat.eqb (ref (filesMap before)) (ref (filesMap after))).

(** Every node of a tree, in the order [traverse] visits them. *)
Fixpoint nodesOf (n : FileNode) : list FileNode :=
  match n with
  | mkNode _ _ _ ch =>
      n :: match ch with
           | Some nodes => flat_map nodesOf nodes
           | None => []
           end
  end.

Definition allNodes (fileTree : list FileNode) : list FileNode :=
  flat_map nodesOf fileTree.

(** The same tree with every empty [content] turned into an absent one:
    a fetched-but-empty file made to look not yet fetched. *)
Fixpoint forgetEmpty (n : FileNode) : FileNode :=
  match n with
  | mkNode t p c ch =>
      mkNode t p (if truthy c then c else None)
             (match ch with
              | Some nodes => Some (List.map forgetEmpty nodes)
              | None => None
              end)
  end.

(** Where a key of the collected map comes from. *)
Definition fromNode (p c : string) (n : FileNode) : Prop :=
  type n = file /\ path n = p /\ content n = Some c /\ c <> "".

(** The pre-fetch effect of lines 153-157: the [openFile(activeFile, true)]
    call it makes, if any.  [status] is the connection status string and
    [activeFile] is a path or [null]. *)
Definition prefetch (status : string) (fileTree : list FileNode)
    (activeFile : option string) (v : View) : option (string * bool) :=
  match activeFile with
  | Some a =>
      if String.eqb status "Connected" && Nat.ltb 0 (length fileTree)
         && truthy_string a && negb (truthy_read (read (value (filesMap v)) a))
      then Some (a, true)
      else None
  | None => None
  end.

(** The identity of the current map object was handed out before the next
    one to be allocated. *)
Definition freshRefs (v : View) : Prop := ref (filesMap v) < nextRef v.

End BuilderView.

(** ** WebContainerPreview: strings and the failure markers *)

Module Text.

(** ASCII case folding: the [i] flag of a non-Unicode regular expression
    never identifies an ASCII letter with a non-ASCII character. *)
Definition lower_ascii (c : ascii) : ascii :=
  let n := Ascii.nat_of_ascii c in
  if Nat.leb 65 n && Nat.leb n 90 then Ascii.ascii_of_nat (n + 32) else c.

Fixpoint lower (s : string) : string :=
  match s with
  | EmptyString => EmptyString
  | String c rest => String (lower_ascii c) (lower rest)
  end.

(** [hay.includes(needle)]. *)
Fixpoint includes (needle hay : string) : bool :=
  String.prefix needle hay ||
  match hay with
  | EmptyString => false
  | String _ rest => includes needle rest
  end.

Definition is_digit (c : ascii) : bool :=
  let n := Ascii.nat_of_ascii c in Nat.leb 48 n && Nat.leb n 57.

(** Characters that [.] does not match. *)
Definition is_line_terminator (c : ascii) : bool :=
  let n := Ascii.nat_of_ascii c in Nat.eqb n 10 || Nat.eqb n 13.

(** Characters matched by [\s]. *)
Definition is_space (c : ascii) : bool :=
  let n := Ascii.nat_of_ascii c in
  (Nat.leb 9 n && Nat.leb n 13) || Nat.eqb n 32 || Nat.eqb n 160.

(** [\.js:\d+] matches at the head of [s] (already lower-cased). *)
Definition js_line_number_here (s : string) : bool :=
  match s with
  | String "."%char (String "j"%char (String "s"%char (String ":"%char (String d _)))) =>
      is_digit d
  | _ => false
  end.

(** [.*\.js:\d+] matches at the head of [s]. *)
Fixpoint js_line_number_on_line (s : string) : bool :=
  js_line_number_here s ||
  match s with
  | EmptyString => false
  | String c rest => negb (is_line_terminator c) && js_line_number_on_line rest
  end.

(** [node_modules\/.*\.js:\d+] matches somewhere in [s]. *)
Fixpoint node_modules_frame (s : string) : bool :=
  match s with
  | EmptyString => false
  | String _ rest =>
      (String.prefix "node_modules/" s
       && js_line_number_on_line (String.substring 13 (String.length s - 13) s))
      || node_modules_frame rest
  end.

Definition markers : list string :=
  ["error:"; "exception:"; "failed:"; "fatal:"; "syntax failure"; "build failed";
   "err_"; "module not found"; "cannot find module"; "uncaught";
   "referenced by the type"].

(** [errorRegex.current.test(text)] for
    [/(error:|exception:|failed:|fatal:|syntax failure|build failed|err_|node_modules\/.*\.js:\d+|module not found|cannot find module|uncaught|referenced by the type)/i]. *)
Definition errorRegex (text : string) : bool :=
  let t := lower text in
  existsb (fun m => includes m t) markers || node_modules_frame t.

(** [s.slice(-n)]. *)
Definition slice_last (n : nat) (s : string) : string :=
  String.substring (String.length s - n) n s.

(** [s.split(sep)] for a one-character separator. *)
Fixpoint split (sep : ascii) (s : string) : list string :=
  match s with
  | EmptyString => [EmptyString]
  | String c rest =>
      if Ascii.eqb c sep then EmptyString :: split sep rest
      else match split sep rest with
           | [] => [String c EmptyString]
           | w :: ws => String c w :: ws
           end
  end.

(** The longest run of characters satisfying [p] at the head of [s], and
    what follows it. *)
Fixpoint span (p : ascii -> bool) (s : string) : string * string :=
  match s with
  | EmptyString => (EmptyString, EmptyString)
  | String c rest =>
      if p c then let '(run, tl) := span p rest in (String c run, tl)
      else (EmptyString, s)
  end.

Definition is_digit_or_dot (c : ascii) : bool :=
  is_digit c || Ascii.eqb c "."%char.

(** [[\d.]+unit] at the head of [s], for one of the [units] tried in
    order; the result is the matched text. *)
Definition number_with_unit (units : list string) (s : string) : option string :=
  let '(run, tl) := span is_digit_or_dot s in
  if Nat.eqb (String.length run) 0 then None
  else match List.find (fun u => String.prefix u tl) units with
       | Some u => Some (run ++ u)
       | None => None
       end.

(** First capture group of the leftmost match of [lead sp ([\d.]+unit)]
    in [s], where [sp] is [\s+] when [spaces] is set and empty
    otherwise. *)
Fixpoint capture_after (lead : string) (spaces : bool) (units : list string)
    (s : string) : option string :=
  let here :=
    if String.prefix lead s then
      let after := String.substring (String.length lead)
                     (String.length s - String.length lead) s in
      if spaces then
        let '(ws, tl) := span is_space after in
        if Nat.eqb (String.length ws) 0 then None else number_with_unit units tl
      else number_with_unit units after
    else None in
  match here with
  | Some m => Some m
  | None => match s with
            | EmptyString => None
            | String _ rest => capture_after lead spaces units rest
            end
  end.

End Text.

(** ** WebContainerPreview: the sandbox interface and asynchronous code *)

Module Preview.

(** The two variants of the component: [part_002], whose scanner is
    [scanForErrors], and [part_003], whose scanner is [processLog]. *)
Inductive Variant : Type := part_002 | part_003.

(** A thrown value: an [Error] object with its [message], or any other
    value with the result of [String(err)]. *)
Inductive Thrown : Type :=
| ErrorObject (message : string)
| OtherValue (repr : string).

(** [err instanceof Error ? err.message : String(err)]. *)
Definition errorMessageOf (err : Thrown) : string :=
  match err with
  | ErrorObject m => m
  | OtherValue s => s
  end.

(** A settled promise. *)
Inductive Result (A : Type) : Type :=
| Resolved (a : A)
| Rejected (err : Thrown).
Arguments Resolved {A} a.
Arguments Rejected {A} err.

Record Dirent : Type := mkDirent { name : string; isDirectory : bool }.

(** A process handle returned by [spawn]. *)
Record Process : Type := mkProcess { pid : nat }.

Inductive Step : Type :=
  mounting | installing | building | starting | compiling | ready.

(** What a [setTimeout] callback does when it runs: the error report of
    the scanner (with the [onTerminalError] its closure captured), or
    the return to ["ready"] of [processLog]. *)
Inductive Callback : Type :=
| reportErrors (onTerminalError : bool)
| backToReady.

Record Timer : Type := mkTimer { timerId : nat; due : N; callback : Callback }.

(** What the [write] of a [WritableStream] piped from a process does with
    a chunk: hand it to the scanner, or only log it. *)
Inductive Sink : Type :=
| toScanner (onTerminalError : bool)
| logOnly.

(** The mutable state one component instance owns or drives: its
    [useRef] cells, the latest value given to each state setter, the
    registered output sinks, the browser's timer table with its clock
    (milliseconds), and the calls made to [onTerminalError]. *)
Record Component : Type := mkComponent {
  setupStartedRef : bool;
  initialLoadCompleteRef : bool;
  devProcessRef : option Process;
  errorBuffer : string;
  errorTimeout : option nat;
  prevFilesRef : FileMap;
  setupError : option string;
  currentStep : Step;
  compileMessage : string;
  setupComplete : bool;
  pipes : list (Process * Sink);
  timers : list Timer;
  nextTimer : nat;
  clock : N;
  terminalErrors : list string
}.

Definition set_setupStartedRef (x : bool) (s : Component) : Component :=
  let 'mkComponent a b c d e f g h i j k l m n o := s in mkComponent x b c d e f g h i j k l m n o.
Definition set_initialLoadCompleteRef (x : bool) (s : Component) : Component :=
  let 'mkComponent a b c d e f g h i j k l m n o := s in mkComponent a x c d e f g h i j k l m n o.
Definition set_devProcessRef (x : option Process) (s : Component) : Component :=
  let 'mkComponent a b c d e f g h i j k l m n o := s in mkComponent a b x d e f g h i j k l m n o.
Definition set_errorBuffer (x : string) (s : Component) : Component :=
  let 'mkComponent a b c d e f g h i j k l m n o := s in mkComponent a b c x e f g h i j k l m n o.
Definition set_errorTimeout (x : option nat) (s : Component) : Component :=
  let 'mkComponent a b c d e f g h i j k l m n o := s in mkComponent a b c d x f g h i j k l m n o.
Definition set_prevFilesRef (x : FileMap) (s : Component) : Component :=
  let 'mkComponent a b c d e f g h i j k l m n o := s in mkComponent a b c d e x g h i j k l m n o.
Definition setSetupError (x : option string) (s : Component) : Component :=
  let 'mkComponent a b c d e f g h i j k l m n o := s in mkComponent a b c d e f x h i j k l m n o.
Definition setCurrentStep (x : Step) (s : Component) : Component :=
  let 'mkComponent a b c d e f g h i j k l m n o := s in mkComponent a b c d e f g x i j k l m n o.
Definition setCompileMessage (x : string) (s : Component) : Component :=
  let 'mkComponent a b c d e f g h i j k l m n o := s in mkComponent a b c d e f g h x j k l m n o.
Definition setIsSetupComplete (x : bool) (s : Component) : Component :=
  let 'mkComponent a b c d e f g h i j k l m n o := s in mkComponent a b c d e f g h i x k l m n o.
Definition set_pipes (x : list (Process * Sink)) (s : Component) : Component :=
  let 'mkComponent a b c d e f g h i j k l m n o := s in mkComponent a b c d e f g h i j x l m n o.
Definition set_timers (x : list Timer) (s : Component) : Component :=
  let 'mkComponent a b c d e f g h i j k l m n o := s in mkComponent a b c d e f g h i j k x m n o.
Definition set_nextTimer (x : nat) (s : Component) : Component :=
  let 'mkComponent a b c d e f g h i j k l m n o := s in mkComponent a b c d e f g h i j k l x n o.
Definition set_clock (x : N) (s : Component) : Component :=
  let 'mkComponent a b c d e f g h i j k l m n o := s in mkComponent a b c d e f g h i j k l m x o.
Definition set_terminalErrors (x : list string) (s : Component) : Component :=
  let 'mkComponent a b c d e f g h i j k l m n o := s in mkComponent a b c d e f g h i j k l m n x.

(** The component as first mounted with the [files] prop [files0]:
    [useRef(false)], [useRef("")], [useRef(null)], [useRef(files)],
    [useState(null)], [useState("mounting")], [useState("")]. *)
Definition mountComponent (files0 : FileMap) : Component :=
  mkComponent false false None "" None files0 None mounting "" false [] [] 1 0%N [].

(** [setTimeout(cb, delay)]: returns the identifier of the new timer. *)
Definition setTimeout (cb : Callback) (delay : N) (s : Component) : nat * Component :=
  (nextTimer s,
   set_nextTimer (S (nextTimer s))
     (set_timers (timers s ++ [mkTimer (nextTimer s) (clock s + delay)%N cb]) s)).

(** [clearTimeout(id)]. *)
Definition clearTimeout (id : nat) (s : Component) : Component :=
  set_timers (List.filter (fun t => negb (Nat.eqb (timerId t) id)) (timers s)) s.

(** The body of a timer callback. *)
Definition runCallback (cb : Callback) (s : Component) : Component :=
  match cb with
  | reportErrors onTerminalError =>
      if onTerminalError then
        set_errorBuffer "" (set_terminalErrors (terminalErrors s ++ [errorBuffer s]) s)
      else s
  | backToReady => setCompileMessage "" (setCurrentStep ready s)
  end.

(** The debounce tail shared by both scanners (part_002 lines 136-142,
    part_003 lines 119-125). *)
Definition debounceReport (onTerminalError : bool) (s : Component) : Component :=
  let s := match errorTimeout s with
           | Some id => clearTimeout id s
           | None => s
           end in
  let '(id, s) := setTimeout (reportErrors onTerminalError) 1000%N s in
  set_errorTimeout (Some id) s.

(** Lines 128-131 of part_002 and 114-117 of part_003: append, then keep
    the last 1000 characters once the buffer exceeds 2000. *)
Definition appendToBuffer (text : string) (s : Component) : Component :=
  let s := set_errorBuffer (errorBuffer s ++ text) s in
  if Nat.ltb 2000 (String.length (errorBuffer s))
  then set_errorBuffer (Text.slice_last 1000 (errorBuffer s)) s
  else s.

(** [scanForErrors] of part_002 (lines 126-144). *)
Definition scanForErrors (onTerminalError : bool) (text : string) (s : Component)
  : Component :=
  let s := appendToBuffer text s in
  if Text.errorRegex text || Text.errorRegex (errorBuffer s)
  then debounceReport onTerminalError s
  else s.

(** The blocks of [processLog] of part_003, one per [if] statement. *)

(** Lines 52-58. *)
Definition onCompiling (data : string) (s : Component) : Component :=
  if Text.includes "Compiling /" data then
    if negb (initialLoadCompleteRef s)
    then setCompileMessage "Compiling application..." (setCurrentStep compiling s)
    else s
  else s.

(** Lines 60-76. *)
Definition onCompiled (data : string) (s : Component) : Component :=
  if Text.includes "Compiled /" data || Text.includes "Compiled in" data then
    let s := set_initialLoadCompleteRef true s in
    let s := match Text.capture_after "in" true ["s"; "ms"] data with
             | Some t => setCompileMessage ("Compiled in " ++ t) s
             | None => setCompileMessage "Compilation complete" s
             end in
    snd (setTimeout backToReady 3000%N s)
  else s.

(** Lines 78-88. *)
Definition onFastRefreshRebuilding (data : string) (s : Component) : Component :=
  if Text.includes "[Fast Refresh] rebuilding" data then
    if negb (initialLoadCompleteRef s)
    then setCompileMessage "Hot reloading..." (setCurrentStep compiling s)
    else s
  else s.

(** Lines 90-102. *)
Definition onFastRefreshDone (data : string) (s : Component) : Component :=
  if Text.includes "[Fast Refresh] done" data then
    let s := match Text.capture_after "done in " false ["ms"] data with
             | Some t => setCompileMessage ("Hot reloaded in " ++ t) s
             | None => setCompileMessage "Hot reload complete" s
             end in
    snd (setTimeout backToReady 2000%N s)
  else s.

(** Lines 104-110. *)
Definition onReady (data : string) (s : Component) : Component :=
  if Text.includes "Ready in" data then
    let s := set_initialLoadCompleteRef true s in
    match Text.capture_after "Ready in" true ["s"] data with
    | Some t => setCompileMessage ("Ready in " ++ t) s
    | None => s
    end
  else s.

(** Lines 112-126. *)
Definition onError (onTerminalError : bool) (data : string) (s : Component)
  : Component :=
  if Text.errorRegex data
  then debounceReport onTerminalError (appendToBuffer data s)
  else s.

(** [processLog] of part_003 (lines 48-127). *)
Definition processLog (onTerminalError : bool) (data : string) (s : Component)
  : Component :=
  let s := onCompiling data s in
  let s := onCompiled data s in
  let s := onFastRefreshRebuilding data s in
  let s := onFastRefreshDone data s in
  let s := onReady data s in
  onError onTerminalError data s.

(** Whether a chunk carries one of the progress markers that
    [processLog] looks for. *)
Definition progressMarker (data : string) : bool :=
  Text.includes "Compiling /" data || Text.includes "Compiled /" data
  || Text.includes "Compiled in" data || Text.includes "[Fast Refresh] rebuilding" data
  || Text.includes "[Fast Refresh] done" data || Text.includes "Ready in" data.

(** The scanner of each variant. *)
Definition scanner (v : Variant) : bool -> string -> Component -> Component :=
  match v with
  | part_002 => scanForErrors
  | part_003 => processLog
  end.

(** Timers that have come due, earliest first (ties in creation
    order). *)
Definition insertByDue (t : Timer) : list Timer -> list Timer :=
  fix go (l : list Timer) : list Timer :=
    match l with
    | [] => [t]
    | u :: rest => if N.ltb (due t) (due u) then t :: u :: rest else u :: go rest
    end.

Definition dueTimers (s : Component) : list Timer :=
  fold_left (fun acc t => insertByDue t acc)
            (List.filter (fun t => N.leb (due t) (clock s)) (timers s)) [].

(** [ms] milliseconds pass with no other event: every timer that comes
    due fires once, in order, and leaves the timer table. *)
Definition elapse (ms : N) (s : Component) : Component :=
  let s := set_clock (clock s + ms)%N s in
  let fired := dueTimers s in
  let s := set_timers (List.filter (fun t => negb (N.leb (due t) (clock s))) (timers s)) s in
  fold_left (fun s t => runCallback (callback t) s) fired s.

(** The cells that the setup effect owns and that neither the scanners nor
    the timers write. *)
Definition setupCells (s : Component) : bool * option string * bool :=
  (setupStartedRef s, setupError s, setupComplete s).

(** What reaches a scanner over time: a chunk of output, handed over by a
    [write] callback that captured [onTerminalError], or a stretch of
    time without output. *)
Inductive Feed : Type :=
| written (onTerminalError : bool) (text : string)
| silence (ms : N).

Definition feed (v : Variant) (s : Component) (ev : Feed) : Component :=
  match ev with
  | written cb text => scanner v cb text s
  | silence ms => elapse ms s
  end.

(** The pending timers whose callback is the error report. *)
Definition isReport (t : Timer) : bool :=
  match callback t with
  | reportErrors _ => true
  | backToReady => false
  end.

Definition pendingReports (s : Component) : list Timer :=
  List.filter isReport (timers s).

(** The cells through which the scanner, the timers and the error
    callback interact. *)
Definition reportCells (s : Component) : list Timer * string * list string * N :=
  (pendingReports s, errorBuffer s, terminalErrors s, clock s).

(** The invariant of the timer table and the buffer: timer identifiers
    are below the next one to be handed out and pairwise distinct; a
    pending error report is the timer that [errorTimeout] names; while
    one is pending the buffer is not empty; and the error callback has
    never been given an empty report. *)
Definition tidy (s : Component) : Prop :=
  (forall t, In t (timers s) -> timerId t < nextTimer s) /\
  NoDup (List.map timerId (timers s)) /\
  (forall t, In t (timers s) -> isReport t = true -> errorTimeout s = Some (timerId t)) /\
  (pendingReports s <> [] -> errorBuffer s <> "") /\
  ~ In "" (terminalErrors s).

Definition tidyCells (s : Component) :=
  (timers s, nextTimer s, errorTimeout s, errorBuffer s, terminalErrors s).

(** [getStepMessage] (part_002 lines 361-370, part_003 lines 331-341);
    [a || b] on strings picks [b] when [a] is empty. *)
Definition getStepMessage (v : Variant) (s : Component) : string :=
  match currentStep s with
  | mounting => "Mounting files..."
  | installing => "Installing dependencies..."
  | building => "Building for production..."
  | starting => "Starting development server..."
  | compiling =>
      match v with
      | part_002 => "Initializing environment..."
      | part_003 =>
          if truthy_string (compileMessage s) then compileMessage s else "Compiling..."
      end
  | ready =>
      match v with
      | part_002 => "Application ready!"
      | part_003 =>
          if truthy_string (compileMessage s) then compileMessage s
          else "Application ready!"
      end
  end.

(** *** The sandbox API and the monad of asynchronous code *)

Section Sandbox.

(** The nested tree taken by [mount] and the helper
    [transformFlatMapToWebContainer] of [utils/webcontainerUtils], which
    is not among the sources: both are parameters. *)
Variable FileSystemTree : Type.
Variable transformFlatMapToWebContainer : FileMap -> FileSystemTree.

(** The asynchronous operations of a [WebContainer] instance that the
    component awaits.  [fs_readdir] is called with [withFileTypes: true],
    [fs_rm] and [fs_mkdir] with [recursive: true]; [exit] is the [exit]
    promise of a process. *)
Inductive Call : Type :=
| fs_readFile (path : string)
| mount (tree : FileSystemTree)
| fs_readdir (path : string)
| spawn (command : string) (args : list string)
| exit (p : Process)
| fs_rm (path : string)
| fs_mkdir (path : string)
| fs_writeFile (path content : string).

(** The type a call's promise resolves to. *)
Definition ret (c : Call) : Type :=
  match c with
  | fs_readFile _ => string
  | mount _ => unit
  | fs_readdir _ => list Dirent
  | spawn _ _ => Process
  | exit _ => Z
  | fs_rm _ => unit
  | fs_mkdir _ => unit
  | fs_writeFile _ _ => unit
  end.

(** A call together with how its promise settled. *)
Inductive Obs : Type :=
| readFile_obs (path : string) (r : Result string)
| mount_obs (tree : FileSystemTree) (r : Result unit)
| readdir_obs (path : string) (r : Result (list Dirent))
| spawn_obs (command : string) (args : list string) (r : Result Process)
| exit_obs (p : Process) (r : Result Z)
| rm_obs (path : string) (r : Result unit)
| mkdir_obs (path : string) (r : Result unit)
| writeFile_obs (path content : string) (r : Result unit).

Definition observe (c : Call) : Result (ret c) -> Obs :=
  match c with
  | fs_readFile p => readFile_obs p
  | mount t => mount_obs t
  | fs_readdir p => readdir_obs p
  | spawn cmd args => spawn_obs cmd args
  | exit p => exit_obs p
  | fs_rm p => rm_obs p
  | fs_mkdir p => mkdir_obs p
  | fs_writeFile p c => writeFile_obs p c
  end.

(** Code of an [async] function: it returns, throws, reads or writes the
    component state, or suspends on a promise and continues with its
    result. *)
Inductive Async (A : Type) : Type :=
| Ret (a : A)
| Throw (err : Thrown)
| Get (k : Component -> Async A)
| Put (s : Component) (k : Async A)
| Await (c : Call) (k : Result (ret c) -> Async A).
Arguments Ret {A} a.
Arguments Throw {A} err.
Arguments Get {A} k.
Arguments Put {A} s k.
Arguments Await {A} c k.

Fixpoint bind {A B : Type} (m : Async A) (f : A -> Async B) : Async B :=
  match m with
  | Ret a => f a
  | Throw err => Throw err
  | Get k => Get (fun s => bind (k s) f)
  | Put s k => Put s (bind k f)
  | Await c k => Await c (fun r => bind (k r) f)
  end.

(** [try { body } catch (err) { handler }]. *)
Fixpoint try_catch {A : Type} (body : Async A) (handler : Thrown -> Async A) : Async A :=
  match body with
  | Ret a => Ret a
  | Throw err => handler err
  | Get k => Get (fun s => try_catch (k s) handler)
  | Put s k => Put s (try_catch k handler)
  | Await c k => Await c (fun r => try_catch (k r) handler)
  end.

(** [await c]: a rejected promise throws at the [await]. *)
Definition await (c : Call) : Async (ret c) :=
  Await c (fun r => match r with
                    | Resolved a => Ret a
                    | Rejected err => Throw err
                    end).

(** A synchronous statement that updates the component state. *)
Definition modify (f : Component -> Component) : Async unit :=
  Get (fun s => Put (f s) (Ret tt)).

Definition when (b : bool) (m : Async unit) : Async unit :=
  if b then m else Ret tt.

Notation "x <- m ;; k" := (bind m (fun x => k))
  (at level 100, m at next level, right associativity).
Notation "m ;;; k" := (bind m (fun _ => k))
  (at level 100, right associativity).

(** The props of one render, as captured by the effect closures. *)
Record Props : Type := mkProps {
  files : FileMap;
  webContainerInstance : bool;
  serverUrl : string;
  isProduction : bool;
  isSetupComplete : bool;
  onTerminalError : bool
}.

(** [proc.output.pipeTo(new WritableStream({ write }))]. *)
Definition pipeTo (proc : Process) (sink : Sink) : Async unit :=
  modify (fun s => set_pipes (pipes s ++ [(proc, sink)]) s).

(** Which [write] callbacks call the scanner: all four in part_002; only
    those of the build and of the dev server in part_003. *)
Definition installSink (v : Variant) (p : Props) : Sink :=
  match v with part_002 => toScanner (onTerminalError p) | part_003 => logOnly end.
Definition buildSink (v : Variant) (p : Props) : Sink :=
  toScanner (onTerminalError p).
Definition serveSink (v : Variant) (p : Props) : Sink :=
  match v with part_002 => toScanner (onTerminalError p) | part_003 => logOnly end.
Definition devSink (v : Variant) (p : Props) : Sink :=
  toScanner (onTerminalError p).

(** The manifest gate: [!files['package.json'] && !files['/package.json']]. *)
Definition manifestMissing (f : FileMap) : bool :=
  negb (truthy (f !! "package.json")) && negb (truthy (f !! "/package.json")).

(** [entries.some(entry => entry.name === 'node_modules' && entry.isDirectory())]. *)
Definition hasNodeModules (entries : list Dirent) : bool :=
  existsb (fun entry => String.eqb (name entry) "node_modules" && isDirectory entry) entries.

(** The [try] block of [setupContainer] (part_002 lines 169-284,
    part_003 lines 150-254). *)
Definition bringUp (v : Variant) (p : Props) : Async unit :=
  modify (setSetupError None) ;;;
  modify (setCurrentStep mounting) ;;;
  filesMounted <-
    try_catch (_ <- await (fs_readFile "/package.json") ;; Ret true)
              (fun _ => Ret false) ;;
  when (negb filesMounted)
       (await (mount (transformFlatMapToWebContainer (files p)))) ;;;
  dependenciesInstalled <-
    try_catch (entries <- await (fs_readdir "/") ;; Ret (hasNodeModules entries))
              (fun _ => Ret false) ;;
  when (negb dependenciesInstalled)
       (modify (setCurrentStep installing) ;;;
        installProcess <- await (spawn "pnpm" ["install"; "--prefer-offline"]) ;;
        pipeTo installProcess (installSink v p) ;;;
        installExitCode <- await (exit installProcess) ;;
        if negb (Z.eqb installExitCode 0)
        then Throw (ErrorObject ("Failed to install dependencies. Exit code: "
                                 ++ pretty installExitCode))
        else Ret tt) ;;;
  (if isProduction p then
     modify (setCurrentStep building) ;;;
     buildProcess <- await (spawn "pnpm" ["run"; "build"]) ;;
     pipeTo buildProcess (buildSink v p) ;;;
     buildExitCode <- await (exit buildProcess) ;;
     (if negb (Z.eqb buildExitCode 0)
      then Throw (ErrorObject ("Build failed with exit code: " ++ pretty buildExitCode))
      else Ret tt) ;;;
     serveProcess <- await (spawn "pnpm" ["dlx"; "serve"; "dist"]) ;;
     pipeTo serveProcess (serveSink v p)
   else
     modify (setCurrentStep starting) ;;;
     startProcess <- await (spawn "pnpm" ["run"; "dev"]) ;;
     when (match v with part_003 => true | part_002 => false end)
          (modify (set_devProcessRef (Some startProcess))) ;;;
     pipeTo startProcess (devSink v p)) ;;;
  modify (setIsSetupComplete true) ;;;
  modify (setCurrentStep ready).

(** The [catch] block (part_002 lines 286-292, part_003 lines 256-261). *)
Definition bringUpFailed (v : Variant) (p : Props) (err : Thrown) : Async unit :=
  let errorMessage := errorMessageOf err in
  modify (setSetupError (Some errorMessage)) ;;;
  when (match v with part_002 => true | part_003 => false end)
       (modify (scanForErrors (onTerminalError p) ("Fatal Error: " ++ errorMessage))) ;;;
  modify (set_setupStartedRef false).

(** One bring-up attempt: the [try] statement. *)
Definition attempt (v : Variant) (p : Props) : Async unit :=
  try_catch (bringUp v p) (bringUpFailed v p).

(** [setupContainer] (part_002 lines 148-293, part_003 lines 131-262),
    called by the setup effect on every run. *)
Definition setupContainer (v : Variant) (p : Props) : Async unit :=
  Get (fun s =>
    if negb (webContainerInstance p) || isSetupComplete p || setupStartedRef s
    then Ret tt
    else if truthy_string (serverUrl p) then
      modify (setIsSetupComplete true) ;;;
      modify (setCurrentStep ready) ;;;
      when (match v with part_003 => true | part_002 => false end)
           (modify (set_initialLoadCompleteRef true))
    else if manifestMissing (files p) then Ret tt
    else
      modify (set_setupStartedRef true) ;;;
      when (match v with part_003 => true | part_002 => false end)
           (modify (set_initialLoadCompleteRef false)) ;;;
      attempt v p).

(** *** The file-sync effect *)

(** The two [forEach] loops of the diff (part_002 lines 305-320,
    part_003 lines 272-285). *)
Definition changedFiles (files prev : FileMap) : FileMap :=
  fold_left
    (fun changed path =>
       if negb (bool_decide (read files path = read prev path))
       then match read files path with
            | js_string content => assign path content changed
            | _ => changed
            end
       else changed)
    (Object_keys files) ∅.

Definition deletedFiles (files prev : FileMap) : list string :=
  fold_left
    (fun deleted path =>
       if negb (in_operator path files)
       then (deleted ++ [path])%list
       else deleted)
    (Object_keys prev) [].

(** The first loop of [sync]. *)
Fixpoint syncDeletions (deleted : list string) : Async unit :=
  match deleted with
  | [] => Ret tt
  | path :: rest =>
      try_catch (await (fs_rm path)) (fun _ => Ret tt) ;;;
      syncDeletions rest
  end.

(** The body of the second loop of [sync] for one entry. *)
Definition syncWrite (path content : string) : Async unit :=
  try_catch
    (let parts := Text.split "/" path in
     when (Nat.ltb 1 (length parts))
          (let dirPath := String.concat "/" (removelast parts) in
           await (fs_mkdir dirPath)) ;;;
     await (fs_writeFile path content))
    (fun _ => Ret tt).

Fixpoint syncWrites (changed : list (string * string)) : Async unit :=
  match changed with
  | [] => Ret tt
  | (path, content) :: rest => syncWrite path content ;;; syncWrites rest
  end.

(** [sync] (part_002 lines 328-355, part_003 lines 299-325). *)
Definition sync (deleted : list string) (changed : FileMap) (files : FileMap)
  : Async unit :=
  syncDeletions deleted ;;;
  syncWrites (Object_entries changed) ;;;
  modify (set_prevFilesRef files).

(** The file-sync effect (part_002 lines 301-359, part_003 lines
    269-329). *)
Definition fileSync (v : Variant) (p : Props) : Async unit :=
  Get (fun s =>
    if negb (webContainerInstance p) || negb (isSetupComplete p) then Ret tt
    else
      let changed := changedFiles (files p) (prevFilesRef s) in
      let deleted := deletedFiles (files p) (prevFilesRef s) in
      if Nat.ltb 0 (length (Object_keys changed)) || Nat.ltb 0 (length deleted) then
        when (match v with
              | part_003 => Nat.ltb 0 (length (Object_keys changed))
              | part_002 => false
              end)
             (modify (setCurrentStep compiling) ;;;
              modify (setCompileMessage "Detected file changes. Recompiling...")) ;;;
        sync deleted changed (files p)
      else Ret tt).

(** The calls [block] are the attempt of one entry of the batch: for a
    path with a directory part, the creation of that directory followed,
    when it succeeded, by the write of the entry, and nothing more when it
    was rejected; for a path without one, the write alone.  The write
    may settle either way. *)
Definition attempted (path content : string) (block : list Obs) : Prop :=
  let dirPath := String.concat "/" (removelast (Text.split "/" path)) in
  if Nat.ltb 1 (length (Text.split "/" path)) then
    (exists r, block = [mkdir_obs dirPath (Resolved tt); writeFile_obs path content r]) \/
    (exists err, block = [mkdir_obs dirPath (Rejected err)])
  else
    exists r, block = [writeFile_obs path content r].

(** An observation that is not a removal. *)
Definition notRemoval (o : Obs) : Prop :=
  forall path r, o <> rm_obs path r.

(** *** Running asynchronous code *)

(** Where synchronous execution stops: the function returned, threw, or
    suspended on a promise. *)
Inductive Pause (A : Type) : Type :=
| Finished (a : A)
| Uncaught (err : Thrown)
| Suspended (c : Call) (k : Result (ret c) -> Async A).
Arguments Finished {A} a.
Arguments Uncaught {A} err.
Arguments Suspended {A} c k.

(** Run to the next suspension point. *)
Fixpoint run {A : Type} (m : Async A) (s : Component) : Component * Pause A :=
  match m with
  | Ret a => (s, Finished a)
  | Throw err => (s, Uncaught err)
  | Get k => run (k s) s
  | Put s' k => run k s'
  | Await c k => (s, Suspended c k)
  end.

(** A bring-up attempt suspended on a promise. *)
Record Task : Type := mkTask {
  waitsFor : Call;
  resume : Result (ret waitsFor) -> Async unit
}.

(** The component together with the bring-up attempts in flight and the
    sandbox calls they have issued so far. *)
Record World : Type := mkWorld {
  component : Component;
  inFlight : list Task;
  issued : list Call
}.

Definition mountWorld (files0 : FileMap) : World :=
  mkWorld (mountComponent files0) [] [].

(** What the event loop can do next: the setup effect runs with the
    props of some render; the promise awaited by the [i]-th attempt in
    flight settles; a process writes a chunk of output; time passes. *)
Inductive Event : Type :=
| effectRuns (p : Props)
| settles (i : nat) (answer : forall c : Call, Result (ret c))
| output (proc : Process) (chunk : string)
| timePasses (ms : N).

Definition park (w : World) (others : list Task) (r : Component * Pause unit) : World :=
  match r with
  | (s, Suspended c k) => mkWorld s (others ++ [mkTask c k]) (issued w ++ [c])
  | (s, _) => mkWorld s others (issued w)
  end.

(** A chunk from [proc] reaches every sink piped from it. *)
Definition deliver (v : Variant) (proc : Process) (chunk : string) (s : Component)
  : Component :=
  fold_left
    (fun s '(q, sink) =>
       if Nat.eqb (pid q) (pid proc) then
         match sink with
         | toScanner cb => scanner v cb chunk s
         | logOnly => s
         end
       else s)
    (pipes s) s.

Definition step (v : Variant) (w : World) (ev : Event) : World :=
  match ev with
  | effectRuns p => park w (inFlight w) (run (setupContainer v p) (component w))
  | settles i answer =>
      match inFlight w !! i with
      | Some t =>
          park w (delete i (inFlight w))
               (run (resume t (answer (waitsFor t))) (component w))
      | None => w
      end
  | output proc chunk =>
      mkWorld (deliver v proc chunk (component w)) (inFlight w) (issued w)
  | timePasses ms => mkWorld (elapse ms (component w)) (inFlight w) (issued w)
  end.

(** Code that keeps the flag while it is suspended: run from [s], it
    reaches each suspension point with the flag set, provided the flag is
    still set whenever it is resumed. *)
Fixpoint flagHeld (m : Async unit) (s : Component) : Prop :=
  match m with
  | Ret _ => True
  | Throw _ => True
  | Get k => flagHeld (k s) s
  | Put s' k => flagHeld k s'
  | Await c k =>
      setupStartedRef s = true /\
      forall r s', setupStartedRef s' = true -> flagHeld (k r) s'
  end.

(** A suspended attempt that keeps the flag whichever way it is resumed. *)
Definition taskHeld (t : Task) : Prop :=
  forall r s', setupStartedRef s' = true -> flagHeld (resume t r) s'.

(** The invariant of the event loop. *)
Definition oneAttempt (w : World) : Prop :=
  length (inFlight w) <= 1 /\
  forall t, t ∈ inFlight w -> setupStartedRef (component w) = true /\ taskHeld t.

(** One asynchronous function run to completion against a sandbox whose
    state is [E] and which settles each call as [answer] says; the result
    carries the calls made, in order, with their outcomes. *)
Section Environment.

Variable E : Type.
Variable answer : E -> forall c : Call, Result (ret c) * E.

Fixpoint exec {A : Type} (m : Async A) (s : Component) (e : E)
  : Component * E * list Obs * (A + Thrown) :=
  match m with
  | Ret a => (s, e, [], inl a)
  | Throw err => (s, e, [], inr err)
  | Get k => exec (k s) s e
  | Put s' k => exec k s' e
  | Await c k =>
      let '(r, e') := answer e c in
      let '(s', e'', tr, out) := exec (k r) s e' in
      (s', e'', observe c r :: tr, out)
  end.

(** The parts of the result of [exec]. *)
Definition finalState {A : Type} (r : Component * E * list Obs * (A + Thrown))
  : Component := r.1.1.1.
Definition trace {A : Type} (r : Component * E * list Obs * (A + Thrown))
  : list Obs := r.1.2.
Definition outcome {A : Type} (r : Component * E * list Obs * (A + Thrown))
  : A + Thrown := r.2.

End Environment.

(** Props with which the setup effect gets past its three guards once
    the flag is clear: an instance, setup not complete, no server URL
    yet, and the manifest in the file map. *)
Definition eligible (p : Props) : bool :=
  webContainerInstance p && negb (isSetupComplete p)
  && negb (truthy_string (serverUrl p)) && negb (manifestMissing (files p)).

(** The attempt ended in failure with [msg]: the message is the setup
    error, the flag is clear again, and setup was not declared
    complete. *)
Definition failedWith (before after : Component) (msg : string) : Prop :=
  setupError after = Some msg /\
  setupStartedRef after = false /\
  setupComplete after = setupComplete before.

(** Whether synchronous execution stopped at a promise. *)
Definition suspends {A : Type} (r : Component * Pause A) : bool :=
  match r with
  | (_, Suspended _ _) => true
  | _ => false
  end.

(** The condition of the fast path of [setupContainer]: the three first
    guards passed and a server URL is known. *)
Definition fastPath (p : Props) (s : Component) : bool :=
  webContainerInstance p && negb (isSetupComplete p) && negb (setupStartedRef s)
  && truthy_string (serverUrl p).

(** The directory that [sync] creates before it writes [path]. *)
Definition parentDir (path : string) : string :=
  String.concat "/" (removelast (Text.split "/" path)).


(** In the trace [tr] the call observed as [a] was made, and settled,
    before the call observed as [b] was made. *)
Fixpoint precedes (a b : Obs) (tr : list Obs) : Prop :=
  match tr with
  | [] => False
  | o :: rest => (o = a /\ b ∈ rest) \/ precedes a b rest
  end.


(** An observation of the file sync that the diff accounts for: the
    removal of a key that left the map, or the write (or the creation of
    the parent directory) of a key whose value is new. *)
Definition inDiff (files prev : FileMap) (o : Obs) : Prop :=
  (exists path r, o = rm_obs path r /\ is_Some (prev !! path) /\ files !! path = None) \/
  (exists path content r,
     files !! path = Some content /\ prev !! path <> Some content /\
     (o = writeFile_obs path content r \/ o = mkdir_obs (parentDir path) r)).

End Sandbox.

Arguments fs_readFile {FileSystemTree} path.
Arguments mount {FileSystemTree} tree.
Arguments fs_readdir {FileSystemTree} path.
Arguments spawn {FileSystemTree} command args.
Arguments exit {FileSystemTree} p.
Arguments fs_rm {FileSystemTree} path.
Arguments fs_mkdir {FileSystemTree} path.
Arguments fs_writeFile {FileSystemTree} path content.
Arguments ret {FileSystemTree} c.
Arguments readFile_obs {FileSystemTree} path r.
Arguments mount_obs {FileSystemTree} tree r.
Arguments readdir_obs {FileSystemTree} path r.
Arguments spawn_obs {FileSystemTree} command args r.
Arguments exit_obs {FileSystemTree} p r.
Arguments rm_obs {FileSystemTree} path r.
Arguments mkdir_obs {FileSystemTree} path r.
Arguments writeFile_obs {FileSystemTree} path content r.
Arguments observe {FileSystemTree} c _.
Arguments Ret {FileSystemTree A} a.
Arguments Throw {FileSystemTree A} err.
Arguments Get {FileSystemTree A} k.
Arguments Put {FileSystemTree A} s k.
Arguments Await {FileSystemTree A} c k.
Arguments bind {FileSystemTree A B} m f.
Arguments try_catch {FileSystemTree A} body handler.
Arguments await {FileSystemTree} c.
Arguments modify {FileSystemTree} f.
Arguments when {FileSystemTree} b m.
Arguments pipeTo {FileSystemTree} proc sink.
Arguments bringUp {FileSystemTree} transformFlatMapToWebContainer v p.
Arguments bringUpFailed {FileSystemTree} v p err.
Arguments attempt {FileSystemTree} transformFlatMapToWebContainer v p.
Arguments setupContainer {FileSystemTree} transformFlatMapToWebContainer v p.
Arguments syncDeletions {FileSystemTree} deleted.
Arguments syncWrite {FileSystemTree} path content.
Arguments syncWrites {FileSystemTree} changed.
Arguments sync {FileSystemTree} deleted changed files.
Arguments fileSync {FileSystemTree} v p.
Arguments Finished {FileSystemTree A} a.
Arguments Uncaught {FileSystemTree A} err.
Arguments Suspended {FileSystemTree A} c k.
Arguments run {FileSystemTree A} m s.
Arguments mkTask {FileSystemTree} waitsFor resume.
Arguments waitsFor {FileSystemTree} t.
Arguments resume {FileSystemTree} t _.
Arguments mkWorld {FileSystemTree} component inFlight issued.
Arguments component {FileSystemTree} w.
Arguments inFlight {FileSystemTree} w.
Arguments issued {FileSystemTree} w.
Arguments mountWorld {FileSystemTree} files0.
Arguments effectRuns {FileSystemTree} p.
Arguments settles {FileSystemTree} i answer.
Arguments output {FileSystemTree} proc chunk.
Arguments timePasses {FileSystemTree} ms.
Arguments park {FileSystemTree} w others r.
Arguments step {FileSystemTree} transformFlatMapToWebContainer v w ev.
Arguments attempted {FileSystemTree} path content block.
Arguments notRemoval {FileSystemTree} o.
Arguments flagHeld {FileSystemTree} m s.
Arguments taskHeld {FileSystemTree} t.
Arguments oneAttempt {FileSystemTree} w.
Arguments suspends {FileSystemTree A} r.
Arguments inDiff {FileSystemTree} files prev o.
Arguments precedes {FileSystemTree} a b tr.
Arguments exec {FileSystemTree E} answer {A} m s e.
Arguments finalState {FileSystemTree E A} r.
Arguments trace {FileSystemTree E A} r.
Arguments outcome {FileSystemTree E A} r.

End Preview.

(** ** Two concrete sandboxes and a small project *)

Module Scenario.
Import Preview.

(** A sandbox with an empty filesystem in which every operation succeeds
    except the install, which exits with code 1.  The tree type is the
    flat map itself. *)
Definition emptySandbox (_ : unit) (c : Call FileMap) : Result (ret c) * unit :=
  (match c as c0 return Result (ret c0) with
   | fs_readFile _ => Rejected (ErrorObject "ENOENT: no such file or directory")
   | mount _ => Resolved tt
   | fs_readdir _ => Resolved []
   | spawn _ _ => Resolved (mkProcess 1)
   | exit _ => Resolved 1%Z
   | fs_rm _ => Resolved tt
   | fs_mkdir _ => Resolved tt
   | fs_writeFile _ _ => Resolved tt
   end, tt).

(** A sandbox that survived a remount: the manifest and [node_modules]
    are already there, and every operation succeeds. *)
Definition warmSandbox (_ : unit) (c : Call FileMap) : Result (ret c) * unit :=
  (match c as c0 return Result (ret c0) with
   | fs_readFile _ => Resolved "{}"
   | mount _ => Resolved tt
   | fs_readdir _ => Resolved [mkDirent "node_modules" true; mkDirent "package.json" false]
   | spawn _ _ => Resolved (mkProcess 2)
   | exit _ => Resolved 0%Z
   | fs_rm _ => Resolved tt
   | fs_mkdir _ => Resolved tt
   | fs_writeFile _ _ => Resolved tt
   end, tt).


Definition project : FileMap := {[ "package.json" := "{}"; "src/a.js" := "v1" ]}.

Definition edited : FileMap := {[ "package.json" := "{}"; "src/a.js" := "v2" ]}.

Definition devProps : Props := mkProps project true "" false false true.

(** The props of a later render: setup complete, one file edited. *)
Definition editedProps : Props := mkProps edited true "" false true true.

End Scenario.

(** * Facts *)

(** ** JavaScript values *)

Lemma truthy_Some (v : option string) :
  truthy v = true <-> exists s, v = Some s /\ s <> "".
Proof.
  destruct v as [s|]; simpl; unfold truthy_string.
  - rewrite negb_true_iff. split.
    + intros H. exists s. split; [done|]. intros ->. by rewrite String.eqb_refl in H.
    + intros (s' & [= <-] & Hne). by apply String.eqb_neq.
  - split; [done|]. by intros (? & ? & ?).
Qed.

Lemma elem_of_Object_keys (m : FileMap) (k : string) :
  k ∈ Object_keys m <-> is_Some (m !! k).
Proof.
  unfold Object_keys. rewrite list_elem_of_fmap. split.
  - intros ([k' v] & -> & Hin). apply elem_of_map_to_list in Hin. by exists v.
  - intros [v Hv]. exists (k, v). split; [done|]. by apply elem_of_map_to_list.
Qed.

Lemma length_Object_keys (m : FileMap) : length (Object_keys m) = size m.
Proof. unfold Object_keys. by rewrite length_fmap, length_map_to_list. Qed.

(** ** The Reconciled File Map *)

Module BuilderViewFacts.
Import BuilderView.

(** Induction over a tree, with the hypothesis available for every
    child. *)
Fixpoint FileNode_nested_ind (P : FileNode -> Prop)
    (Hnode : forall t p c ch,
        match ch with Some nodes => Forall P nodes | None => True end ->
        P (mkNode t p c ch))
    (n : FileNode) : P n :=
  match n with
  | mkNode t p c ch =>
      Hnode t p c ch
        (match ch as ch0
               return match ch0 with Some nodes => Forall P nodes | None => True end
         with
         | Some nodes =>
             (fix all (l : list FileNode) : Forall P l :=
                match l with
                | [] => @List.Forall_nil _ P
                | x :: rest =>
                    @List.Forall_cons _ P x rest (FileNode_nested_ind P Hnode x) (all rest)
                end) nodes
         | None => I
         end)
  end.

Lemma visit_unfold t p c ch (newFiles : FileMap) :
  visit (mkNode t p c ch) newFiles =
  let newFiles' :=
    if is_file t && truthy c then
      match c with Some s => <[p := s]> newFiles | None => newFiles end
    else newFiles in
  match ch with
  | Some nodes => traverse nodes newFiles'
  | None => newFiles'
  end.
Proof.
  simpl. destruct ch as [nodes|]; [|done].
  generalize (if is_file t && truthy c
              then match c with Some s => <[p:=s]> newFiles | None => newFiles end
              else newFiles).
  unfold traverse. induction nodes as [|n rest IH]; intros acc; simpl; [done|].
  apply IH.
Qed.

Lemma traverse_cons n rest (newFiles : FileMap) :
  traverse (n :: rest) newFiles = traverse rest (visit n newFiles).
Proof. done. Qed.

Lemma visit_origin (n : FileNode) :
  forall (acc : FileMap) p c,
    visit n acc !! p = Some c ->
    acc !! p = Some c \/ exists n', n' ∈ nodesOf n /\ fromNode p c n'.
Proof.
  induction n as [t q c0 ch IH] using FileNode_nested_ind.
  intros acc p c. rewrite visit_unfold. cbn zeta.
  set (acc1 := if is_file t && truthy c0 then _ else acc).
  assert (Hacc1 : forall c', acc1 !! p = Some c' ->
            acc !! p = Some c' \/ fromNode p c' (mkNode t q c0 ch)).
  { intros c'. unfold acc1. destruct (is_file t && truthy c0) eqn:Hb; [|by left].
    apply andb_true_iff in Hb as [Ht Hc].
    apply truthy_Some in Hc as (s & -> & Hs).
    destruct (decide (q = p)) as [->|Hne].
    - rewrite lookup_insert_eq. intros [= ->]. right.
      destruct t; [|done]. by repeat split.
    - rewrite lookup_insert_ne by done. by left. }
  destruct ch as [nodes|].
  - clearbody acc1. intros Hlook.
    assert (Hgen : acc1 !! p = Some c \/
              exists n', n' ∈ flat_map nodesOf nodes /\ fromNode p c n').
    { clear Hacc1. revert acc1 Hlook.
      induction nodes as [|n rest IHrest]; intros acc1 Hlook; [by left|].
      apply Forall_cons_1 in IH as [IHn IHr].
      rewrite traverse_cons in Hlook.
      destruct (IHrest IHr (visit n acc1) Hlook) as [Hv|(n' & Hin & Hfrom)].
      - destruct (IHn _ _ _ Hv) as [?|(n' & Hin & Hfrom)]; [by left|].
        right. exists n'. split; [|done]. simpl. apply elem_of_app. by left.
      - right. exists n'. split; [|done]. simpl. apply elem_of_app. by right. }
    destruct Hgen as [H1|(n' & Hin & Hfrom)].
    + destruct (Hacc1 _ H1) as [?|Hfrom]; [by left|].
      right. eexists. split; [|exact Hfrom]. simpl. apply elem_of_cons. by left.
    + right. exists n'. split; [|done]. simpl. apply elem_of_cons. by right.
  - intros Hlook. destruct (Hacc1 _ Hlook) as [?|Hfrom]; [by left|].
    right. eexists. split; [|exact Hfrom]. simpl. apply elem_of_cons. by left.
Qed.

Lemma traverse_origin (fileTree : list FileNode) :
  forall (acc : FileMap) p c,
    traverse fileTree acc !! p = Some c ->
    acc !! p = Some c \/ exists n, n ∈ allNodes fileTree /\ fromNode p c n.
Proof.
  induction fileTree as [|n rest IH]; intros acc p c Hlook; [by left|].
  rewrite traverse_cons in Hlook.
  destruct (IH _ _ _ Hlook) as [Hv|(n' & Hin & Hfrom)].
  - destruct (visit_origin _ _ _ _ Hv) as [?|(n' & Hin & Hfrom)]; [by left|].
    right. exists n'. split; [|done]. unfold allNodes. simpl. apply elem_of_app. by left.
  - right. exists n'. split; [|done]. unfold allNodes. simpl. apply elem_of_app. by right.
Qed.

Lemma visit_forgetEmpty (n : FileNode) :
  forall acc : FileMap, visit (forgetEmpty n) acc = visit n acc.
Proof.
  induction n as [t q c0 ch IH] using FileNode_nested_ind.
  intros acc. cbn [forgetEmpty]. rewrite !visit_unfold. cbn zeta.
  assert (Hhead :
    (if is_file t && truthy (if truthy c0 then c0 else None)
     then match (if truthy c0 then c0 else None) with
          | Some s => <[q:=s]> acc | None => acc end
     else acc)
    = (if is_file t && truthy c0
       then match c0 with Some s => <[q:=s]> acc | None => acc end
       else acc)).
  { destruct (truthy c0) eqn:Hc; simpl; [by rewrite Hc | by rewrite !andb_false_r]. }
  rewrite Hhead. destruct ch as [nodes|]; [|done].
  generalize (if is_file t && truthy c0
              then match c0 with Some s => <[q:=s]> acc | None => acc end
              else acc).
  induction nodes as [|n rest IHrest]; intros acc1; [done|].
  apply Forall_cons_1 in IH as [IHn IHr].
  cbn [List.map]. rewrite !traverse_cons, IHn. by apply IHrest.
Qed.

Lemma traverse_forgetEmpty (fileTree : list FileNode) :
  forall acc : FileMap,
    traverse (List.map forgetEmpty fileTree) acc = traverse fileTree acc.
Proof.
  induction fileTree as [|n rest IH]; intros acc; [done|].
  cbn [List.map]. by rewrite !traverse_cons, visit_forgetEmpty, IH.
Qed.

(** *** The snapshot merge *)

(** The test of line 144 succeeds exactly when the spread changes
    nothing. *)
Lemma merge_check_spec (newFiles prev : FileMap) :
  Nat.eqb (length (Object_keys prev)) (length (Object_keys (newFiles ∪ prev)))
  && forallb (fun k => strict_eq (prev !! k) ((newFiles ∪ prev) !! k)) (Object_keys prev)
  = true
  <-> newFiles ∪ prev = prev.
Proof.
  split.
  - intros [Hlen Hall]%andb_true_iff.
    apply Nat.eqb_eq in Hlen. rewrite !length_Object_keys in Hlen.
    rewrite forallb_forall in Hall.
    symmetry. apply map_subseteq_size_eq; [|lia].
    apply map_subseteq_spec. intros k x Hk.
    assert (Hin : In k (Object_keys prev)).
    { apply list_elem_of_In, elem_of_Object_keys. by exists x. }
    specialize (Hall k Hin). unfold strict_eq in Hall.
    apply bool_decide_eq_true in Hall. congruence.
  - intros ->. apply andb_true_iff. split; [apply Nat.eqb_refl|].
    apply forallb_forall. intros k _. unfold strict_eq. by apply bool_decide_eq_true.
Qed.

Lemma mergeUpdater_value (newFiles : FileMap) (fresh : nat) (prev : Obj FileMap) :
  value (mergeUpdater newFiles fresh prev) = newFiles ∪ value prev.
Proof.
  unfold mergeUpdater. cbn [value].
  destruct (_ && _) eqn:Hcheck; [|done].
  apply merge_check_spec in Hcheck. by rewrite Hcheck.
Qed.

Lemma mergeUpdater_same (newFiles : FileMap) (fresh : nat) (prev : Obj FileMap) :
  newFiles ∪ value prev = value prev -> mergeUpdater newFiles fresh prev = prev.
Proof.
  intros Hsame. unfold mergeUpdater. cbn [value].
  apply merge_check_spec in Hsame. by rewrite Hsame.
Qed.

Lemma union_absorb (newFiles prev : FileMap) :
  newFiles ∪ (newFiles ∪ prev) = newFiles ∪ prev.
Proof. by rewrite (assoc_L (∪)), (idemp_L (∪)). Qed.

(** C2.  Merging the same tree snapshot a second time returns the map
    object produced by the first merge: same reference, hence the same
    keys and values, and the effects that depend on [filesMap] are not
    run again. *)
Theorem merge_snapshot_idempotent (fileTree : list FileNode) (v : View) :
  let v1 := mergeFileTree fileTree v in
  let v2 := mergeFileTree fileTree v1 in
  filesMap v2 = filesMap v1 /\
  value (filesMap v2) = value (filesMap v1) /\
  ref (filesMap v2) = ref (filesMap v1) /\
  triggersSync v1 v2 = false.
Proof.
  cbn zeta.
  assert (Heq : filesMap (mergeFileTree fileTree (mergeFileTree fileTree v))
                = filesMap (mergeFileTree fileTree v)).
  { unfold mergeFileTree. destruct (Nat.ltb 0 (length fileTree)) eqn:Hlen.
    - cbn [filesMap]. apply mergeUpdater_same.
      rewrite mergeUpdater_value. apply union_absorb.
    - done. }
  unfold triggersSync. rewrite Heq, Nat.eqb_refl. done.
Qed.

(** C9.  A key of the map before the merge is a key after it, holding its
    previous value or the value the snapshot gives that path. *)
Theorem merge_never_removes_keys (fileTree : list FileNode) (v : View) (k x : string) :
  value (filesMap v) !! k = Some x ->
  k ∈ dom (value (filesMap (mergeFileTree fileTree v))) /\
  (value (filesMap (mergeFileTree fileTree v)) !! k = Some x \/
   exists y, traverse fileTree ∅ !! k = Some y /\
             value (filesMap (mergeFileTree fileTree v)) !! k = Some y).
Proof.
  intros Hk. unfold mergeFileTree.
  destruct (Nat.ltb 0 (length fileTree)).
  - cbn [filesMap]. rewrite mergeUpdater_value, elem_of_dom, lookup_union.
    destruct (traverse fileTree ∅ !! k) as [y|] eqn:Hy; rewrite Hk; simpl.
    + split; [by eexists|]. right. by exists y.
    + split; [by eexists|]. by left.
  - split; [apply elem_of_dom; by eexists|by left].
Qed.

Lemma merge_never_removes_keys_witness :
  let fileTree := [mkNode file "a" (Some "new") None] in
  let v := mkView (mkObj 0 {[ "a" := "old"; "b" := "keep" ]}) None None None 1 in
  value (filesMap v) !! "b" = Some "keep" /\
  "b" ∈ dom (value (filesMap (mergeFileTree fileTree v))) /\
  (value (filesMap (mergeFileTree fileTree v)) !! "b" = Some "keep" \/
   exists y, traverse fileTree ∅ !! "b" = Some y /\
             value (filesMap (mergeFileTree fileTree v)) !! "b" = Some y).
Proof.
  cbn zeta. split; [reflexivity|].
  apply (merge_never_removes_keys
           [mkNode file "a" (Some "new") None]
           (mkView (mkObj 0 {[ "a" := "old"; "b" := "keep" ]}) None None None 1)
           "b" "keep").
  reflexivity.
Defined.

(** C10.  Every key the traversal collects comes from a file node whose
    content is present and not empty; and a tree in which the empty
    contents are made absent is collected, and merged, to the same
    result. *)
Theorem empty_content_contributes_no_key (fileTree : list FileNode) :
  (forall p c, traverse fileTree ∅ !! p = Some c ->
     exists n, n ∈ allNodes fileTree /\
               type n = file /\ path n = p /\ content n = Some c /\ c <> "") /\
  (forall acc : FileMap,
     traverse (List.map forgetEmpty fileTree) acc = traverse fileTree acc) /\
  (forall v, mergeFileTree (List.map forgetEmpty fileTree) v = mergeFileTree fileTree v).
Proof.
  split; [|split].
  - intros p c Hlook.
    destruct (traverse_origin _ _ _ _ Hlook) as [Hempty|(n & Hin & Hfrom)].
    + by rewrite lookup_empty in Hempty.
    + exists n. split; [done|exact Hfrom].
  - apply traverse_forgetEmpty.
  - intros v. unfold mergeFileTree.
    by rewrite length_map, traverse_forgetEmpty.
Qed.

(** *** The rename branch *)

Lemma renameBranch_moves (r : RenamedFile) (m : FileMap) (h : bool) (c : string) :
  m !! oldPath r = Some c -> c <> "" ->
  renameBranch r m h = (delete (oldPath r) (<[newPath r := c]> m), true).
Proof.
  intros Hc Hne. unfold renameBranch. rewrite Hc. simpl.
  unfold truthy_string. by apply String.eqb_neq in Hne as ->.
Qed.

Lemma renameBranch_absent (r : RenamedFile) (m : FileMap) (h : bool) :
  m !! oldPath r = None -> renameBranch r m h = (m, h).
Proof. intros Hc. unfold renameBranch. by rewrite Hc. Qed.

Lemma renameBranch_empty (r : RenamedFile) (m : FileMap) (h : bool) :
  m !! oldPath r = Some "" -> renameBranch r m h = (m, h).
Proof. intros Hc. unfold renameBranch. by rewrite Hc. Qed.

(** C3.  The code at an input where the claim fails: the file ["a.css"]
    arrives with empty content and is then renamed to ["b.css"].  The old
    path is a key of the map, yet the rename leaves the map as it was:
    ["a.css"] stays and ["b.css"] is not created, although the event is
    recorded as processed. *)
Theorem rename_of_empty_file_is_dropped :
  let received := Some (mkObj 10 (mkReceived "a.css" "")) in
  let renamed := Some (mkObj 11 (mkRenamed "a.css" "b.css")) in
  let v1 := syncFilesMap (mkSlots received None None) initialView in
  let v2 := syncFilesMap (mkSlots received None renamed) v1 in
  value (filesMap v1) = {[ "a.css" := "" ]} /\
  value (filesMap v1) !! "a.css" = Some "" /\
  filesMap v2 = filesMap v1 /\
  value (filesMap v2) !! "b.css" = None /\
  prevLastRenamedFileRef v2 = renamed.
Proof. cbn zeta. repeat split; vm_compute; reflexivity. Qed.

End BuilderViewFacts.

(** ** The sandbox preview *)

Module PreviewFacts.
Import Preview.

(** *** The diff of the file-sync effect *)

Lemma read_string (m : FileMap) (k c : string) : read m k = js_string c <-> m !! k = Some c.
Proof.
  unfold read. destruct (m !! k) as [s|]; [split; congruence|].
  split; [|done]. by destruct (bool_decide _).
Qed.

(** A loop that stores the current value of the selected keys. *)
Lemma selected_fold (files : FileMap) (sel : string -> bool) (keys : list string) :
  forall (acc : FileMap) (k : string),
    fold_left
      (fun changed path =>
         if sel path
         then match files !! path with
              | Some content => <[path := content]> changed
              | None => changed
              end
         else changed) keys acc !! k
    = match files !! k with
      | Some c => if bool_decide (k ∈ keys) && sel k then Some c else acc !! k
      | None => acc !! k
      end.
Proof.
  induction keys as [|p rest IH]; intros acc k.
  - simpl. by destruct (files !! k).
  - cbn [fold_left]. rewrite IH. clear IH.
    destruct (files !! k) as [c|] eqn:Hk.
    + destruct (decide (p = k)) as [->|Hne].
      * rewrite (bool_decide_eq_true_2 (k ∈ k :: rest)) by (apply elem_of_cons; auto).
        rewrite andb_true_l. destruct (sel k) eqn:Hq.
        -- rewrite Hk, andb_true_r, lookup_insert_eq. by destruct (bool_decide _).
        -- by rewrite andb_false_r.
      * assert (Hin : bool_decide (k ∈ p :: rest) = bool_decide (k ∈ rest)).
        { apply bool_decide_ext. rewrite elem_of_cons.
          split; [intros [?|?]; [congruence|done]|by right]. }
        rewrite Hin. destruct (_ && _); [done|].
        destruct (sel p); [|done].
        destruct (files !! p); [|done]. by rewrite lookup_insert_ne.
    + destruct (sel p); [|done].
      destruct (files !! p) as [c|] eqn:Hp; [|done].
      rewrite lookup_insert_ne; [done|]. congruence.
Qed.

(** The loop of the diff stores the current value of every key whose
    value is not the snapshot's, except under the name ["__proto__"],
    where the assignment is lost. *)
Lemma changedFiles_fold (files prev : FileMap) (keys : list string) :
  forall acc : FileMap,
    acc !! "__proto__" = None ->
    fold_left
      (fun changed path =>
         if negb (bool_decide (read files path = read prev path))
         then match read files path with
              | js_string content => assign path content changed
              | _ => changed
              end
         else changed) keys acc
    = fold_left
        (fun changed path =>
           if negb (bool_decide (read files path = read prev path))
              && negb (String.eqb path "__proto__")
           then match files !! path with
                | Some content => <[path := content]> changed
                | None => changed
                end
           else changed) keys acc.
Proof.
  induction keys as [|p rest IH]; intros acc Hacc; [done|].
  cbn [fold_left].
  assert (Hstep :
    (if negb (bool_decide (read files p = read prev p))
     then match read files p with
          | js_string content => assign p content acc
          | _ => acc
          end
     else acc)
    = (if negb (bool_decide (read files p = read prev p)) && negb (String.eqb p "__proto__")
       then match files !! p with
            | Some content => <[p := content]> acc
            | None => acc
            end
       else acc)).
  { destruct (negb (bool_decide _)); [|done]. cbn [andb].
    unfold read, assign. destruct (files !! p) as [c|].
    - destruct (String.eqb p "__proto__") eqn:Hp; [|done].
      apply String.eqb_eq in Hp as ->. cbn [andb negb].
      rewrite bool_decide_eq_false_2; [done|]. rewrite Hacc. by intros [? ?].
    - destruct (bool_decide _); by destruct (negb _). }
  rewrite Hstep. apply IH.
  destruct (_ && _) eqn:Hsel; [|done].
  destruct (files !! p); [|done].
  apply andb_true_iff in Hsel as [_ Hp%negb_true_iff%String.eqb_neq].
  by rewrite lookup_insert_ne.
Qed.

Lemma deletedFiles_fold (files : FileMap) (keys : list string) :
  forall acc : list string,
    fold_left
      (fun deleted path =>
         if negb (in_operator path files)
         then (deleted ++ [path])%list
         else deleted) keys acc
    = (acc ++ List.filter (fun path => negb (in_operator path files)) keys)%list.
Proof.
  induction keys as [|p rest IH]; intros acc; cbn [fold_left List.filter].
  - by rewrite app_nil_r.
  - rewrite IH. destruct (negb _); [|done]. by rewrite <- app_assoc.
Qed.

Lemma changedFiles_spec (files prev : FileMap) (k v : string) :
  changedFiles files prev !! k = Some v <->
  files !! k = Some v /\ prev !! k <> Some v /\ k <> "__proto__".
Proof.
  unfold changedFiles. rewrite changedFiles_fold by done.
  rewrite selected_fold, lookup_empty.
  destruct (files !! k) as [c|] eqn:Hk; [|split; [done|by intros [? _]]].
  assert (Hin : bool_decide (k ∈ Object_keys files) = true).
  { apply bool_decide_eq_true, elem_of_Object_keys. rewrite Hk. by eexists. }
  rewrite Hin, andb_true_l.
  assert (Hread : read files k = js_string c) by (by apply read_string).
  rewrite Hread.
  destruct (decide (js_string c = read prev k)) as [Heq|Hne].
  - rewrite bool_decide_eq_true_2 by done. cbn. split; [done|].
    intros ([= ->] & Hdiff & _). symmetry in Heq. by apply read_string in Heq.
  - rewrite bool_decide_eq_false_2 by done. cbn [negb andb].
    destruct (String.eqb k "__proto__") eqn:Hp; cbn [negb].
    + apply String.eqb_eq in Hp. split; [done|]. by intros (_ & _ & ?).
    + apply String.eqb_neq in Hp. split.
      * intros [= ->]. split; [done|]. split; [|done].
        intros Hprev. apply Hne. symmetry. by apply read_string.
      * by intros ([= ->] & _).
Qed.

(** A key of the previous snapshot is marked deleted exactly when the
    current map lacks it and its name is not one that every object
    inherits. *)
Lemma deletedFiles_spec (files prev : FileMap) (k : string) :
  k ∈ deletedFiles files prev <->
  is_Some (prev !! k) /\ files !! k = None /\ k ∉ Object_prototype.
Proof.
  unfold deletedFiles. rewrite deletedFiles_fold, app_nil_l.
  rewrite list_elem_of_In, filter_In, <- list_elem_of_In, elem_of_Object_keys.
  unfold in_operator.
  rewrite negb_true_iff, orb_false_iff, !bool_decide_eq_false, <- eq_None_not_Some.
  tauto.
Qed.

(** The example of the spec: [{c: "3"}] is changed, [[b]] is deleted, and
    [a] is in neither. *)
Lemma delta_of_the_example :
  let mapBefore : FileMap := {[ "a" := "1"; "b" := "2" ]} in
  let mapAfter : FileMap := {[ "a" := "1"; "c" := "3" ]} in
  changedFiles mapAfter mapBefore = {[ "c" := "3" ]} /\
  deletedFiles mapAfter mapBefore = ["b"] /\
  changedFiles mapAfter mapBefore !! "a" = None /\
  "a" ∉ deletedFiles mapAfter mapBefore.
Proof.
  cbn zeta. split; [by vm_compute|]. split; [by vm_compute|]. split; [by vm_compute|].
  rewrite deletedFiles_spec. intros (_ & Habs & _). by vm_compute in Habs.
Qed.

(** C4.  The diff at an input where the claim fails.  The previous
    snapshot has the keys ["toString"] and ["keep"], the current map only
    ["keep"]: the key ["toString"] is present in the last snapshot and
    absent now, yet nothing is marked deleted, because [in] finds the
    inherited [toString].  Away from the inherited names the diff is as
    the claim says: a key other than ["__proto__"] is changed exactly
    when the current map holds a value for it that the snapshot does
    not, a key is deleted exactly when the snapshot has it, the current
    map lacks it and no inherited member bears its name, and the spec's
    example gives [{c: "3"}] and [[b]]. *)
Theorem deleted_key_with_inherited_name_is_kept :
  (let mapBefore : FileMap := {[ "toString" := "x"; "keep" := "k" ]} in
   let mapAfter : FileMap := {[ "keep" := "k" ]} in
   mapBefore !! "toString" = Some "x" /\
   mapAfter !! "toString" = None /\
   deletedFiles mapAfter mapBefore = [] /\
   changedFiles mapAfter mapBefore = ∅) /\
  (forall (files prev : FileMap) (k v : string),
     changedFiles files prev !! k = Some v <->
     files !! k = Some v /\ prev !! k <> Some v /\ k <> "__proto__") /\
  (forall (files prev : FileMap) (k : string),
     k ∈ deletedFiles files prev <->
     is_Some (prev !! k) /\ files !! k = None /\ k ∉ Object_prototype) /\
  (let mapBefore : FileMap := {[ "a" := "1"; "b" := "2" ]} in
   let mapAfter : FileMap := {[ "a" := "1"; "c" := "3" ]} in
   changedFiles mapAfter mapBefore = {[ "c" := "3" ]} /\
   deletedFiles mapAfter mapBefore = ["b"]).
Proof.
  split; [cbn zeta; repeat split; by vm_compute|].
  split; [exact changedFiles_spec|]. split; [exact deletedFiles_spec|].
  cbn zeta. split; by vm_compute.
Qed.

(** *** The output scanner *)

Lemma length_append (a b : string) :
  String.length (a ++ b) = String.length a + String.length b.
Proof.
  induction a as [|c a IH]; [done|].
  change (S (String.length (a ++ b)) = S (String.length a + String.length b)).
  by rewrite IH.
Qed.

Lemma appendToBuffer_short (text : string) (s : Component) :
  String.length (errorBuffer s ++ text) <= 2000 ->
  appendToBuffer text s = set_errorBuffer (errorBuffer s ++ text) s.
Proof.
  intros Hlen. unfold appendToBuffer. destruct s.
  cbn [errorBuffer set_errorBuffer] in *.
  apply Nat.ltb_ge in Hlen. by rewrite Hlen.
Qed.

(** A chunk without progress markers only goes through the error
    handling of [processLog]. *)
Lemma processLog_plain (cb : bool) (data : string) (s : Component) :
  progressMarker data = false ->
  processLog cb data s =
  if Text.errorRegex data then debounceReport cb (appendToBuffer data s) else s.
Proof.
  unfold progressMarker. rewrite !orb_false_iff.
  intros (((((H1 & H2) & H3) & H4) & H5) & H6).
  unfold processLog, onCompiling, onCompiled, onFastRefreshRebuilding,
    onFastRefreshDone, onReady, onError.
  by rewrite H1, H2, H3, H4, H5, H6.
Qed.

(** No timer comes due: only the clock moves. *)
Lemma elapse_idle (ms : N) (s : Component) :
  Forall (fun t => (clock s + ms < due t)%N) (timers s) ->
  elapse ms s = set_clock (clock s + ms)%N s.
Proof.
  intros Hlate. unfold elapse, dueTimers.
  destruct s as [? ? ? ? ? ? ? ? ? ? ? ts ? now ?].
  cbn [clock timers set_clock set_timers] in *.
  assert (Hboth : List.filter (fun t => N.leb (due t) (now + ms)) ts = []
                  /\ List.filter (fun t => negb (N.leb (due t) (now + ms))) ts = ts).
  { induction Hlate as [|t ts Ht _ [IH1 IH2]]; [done|]. cbn [List.filter].
    rewrite (proj2 (N.leb_gt _ _) Ht). cbn [negb]. by rewrite IH1, IH2. }
  destruct Hboth as [Hnone Hall].
  by rewrite Hnone, Hall.
Qed.

(** The only pending timer comes due: it fires and leaves the table. *)
Lemma elapse_fires (ms : N) (s : Component) (t : Timer) :
  timers s = [t] -> (due t <= clock s + ms)%N ->
  elapse ms s = runCallback (callback t) (set_timers [] (set_clock (clock s + ms)%N s)).
Proof.
  intros Hts Hdue. unfold elapse, dueTimers.
  destruct s as [? ? ? ? ? ? ? ? ? ? ? ts ? now ?].
  cbn [clock timers set_clock set_timers] in *. subst ts.
  cbn [List.filter]. rewrite (proj2 (N.leb_le _ _) Hdue). done.
Qed.

Ltac timers_side :=
  cbn [timers clock due];
  first [ reflexivity
        | lia
        | repeat (apply Forall_cons; split; [cbn [due]; lia|]); apply Forall_nil_2 ].

Ltac scanner_step :=
  unfold debounceReport, setTimeout, clearTimeout;
  cbn [errorBuffer set_errorBuffer errorTimeout timers nextTimer clock set_clock
       set_timers set_nextTimer set_errorTimeout app List.filter timerId Nat.eqb negb].

(** *** The bounded buffer *)

Lemma substring_length (s : string) :
  forall n m, n + m <= String.length s -> String.length (String.substring n m s) = m.
Proof.
  induction s as [|c s IH]; intros n m Hlen; cbn [String.length] in Hlen.
  - assert (n = 0) by lia. assert (m = 0) by lia. by subst.
  - destruct n as [|n]; destruct m as [|m]; cbn [String.substring String.length]; try done.
    + f_equal. apply IH. lia.
    + apply IH. lia.
    + apply IH. lia.
Qed.

Lemma substring_suffix (s : string) :
  forall n, n <= String.length s ->
    exists dropped, s = dropped ++ String.substring n (String.length s - n) s.
Proof.
  induction s as [|c s IH]; intros n Hlen; cbn [String.length] in *.
  - exists "". by destruct n.
  - destruct n as [|n].
    + exists "". change ("" ++ ?x) with x. cbn [Nat.sub String.substring]. f_equal.
      destruct (IH 0) as (d & Hd); [lia|]. rewrite Nat.sub_0_r in Hd.
      clear -s. induction s as [|c' s IHs]; [done|]. cbn [String.length String.substring].
      by rewrite <- IHs.
    + destruct (IH n) as (d & Hd); [lia|].
      exists (String c d). cbn [Nat.sub String.substring].
      change (String c d ++ ?x) with (String c (d ++ x)). by rewrite <- Hd.
Qed.

(** *** The invariant of the timer table and the buffer *)

Lemma tidy_ext (s s' : Component) : tidyCells s = tidyCells s' -> tidy s -> tidy s'.
Proof.
  unfold tidyCells, tidy, pendingReports. intros [= Ht Hn He Hb Hr].
  by rewrite Ht, Hn, He, Hb, Hr.
Qed.

Lemma tidy_mount (files0 : FileMap) : tidy (mountComponent files0).
Proof.
  unfold tidy, pendingReports, mountComponent. cbn.
  split; [by intros ? []|]. split; [apply NoDup_nil_2|].
  split; [by intros ? []|]. split; [by intros []|by intros []].
Qed.

(** Pending timers with pairwise distinct identifiers, of which those
    selected by [P] all carry the identifier [id]: at most one is
    selected. *)
Lemma at_most_one_selected (P : Timer -> bool) (id : nat) (ts : list Timer) :
  NoDup (List.map timerId ts) ->
  (forall t, In t ts -> P t = true -> timerId t = id) ->
  length (List.filter P ts) <= 1.
Proof.
  induction ts as [|t ts IH]; intros Hnd Hid; [cbn; lia|].
  cbn [List.map] in Hnd. apply NoDup_cons in Hnd as [Hnotin Hnd].
  cbn [List.filter]. destruct (P t) eqn:Ht.
  - assert (Hnone : List.filter P ts = []).
    { destruct (List.filter P ts) as [|u us] eqn:Hf; [done|].
      assert (Hu : In u (List.filter P ts)) by (rewrite Hf; by left).
      apply filter_In in Hu as [Hin Hpu].
      destruct Hnotin. apply list_elem_of_In.
      rewrite (Hid t (or_introl eq_refl) Ht), <- (Hid u (or_intror Hin) Hpu).
      by apply in_map. }
    rewrite Hnone. cbn. lia.
  - apply IH; [done|]. intros u Hu. apply Hid. by right.
Qed.

Lemma tidy_one_report (s : Component) : tidy s -> length (pendingReports s) <= 1.
Proof.
  intros (_ & Hnd & Hrep & _ & _). unfold pendingReports.
  destruct (errorTimeout s) as [id|] eqn:Hid.
  - apply (at_most_one_selected isReport id); [done|].
    intros t Hin Ht. specialize (Hrep t Hin Ht). congruence.
  - destruct (List.filter isReport (timers s)) as [|t ts] eqn:Hf; [cbn; lia|].
    assert (Ht : In t (List.filter isReport (timers s))) by (rewrite Hf; by left).
    apply filter_In in Ht as [Hin Hr]. specialize (Hrep t Hin Hr). congruence.
Qed.

Lemma errorRegex_empty : Text.errorRegex "" = false.
Proof. by vm_compute. Qed.

Lemma errorBuffer_appendToBuffer (text : string) (s : Component) :
  errorBuffer (appendToBuffer text s) =
  if Nat.ltb 2000 (String.length (errorBuffer s ++ text))
  then Text.slice_last 1000 (errorBuffer s ++ text)
  else errorBuffer s ++ text.
Proof.
  unfold appendToBuffer. destruct s. cbn [errorBuffer set_errorBuffer].
  by destruct (Nat.ltb _ _).
Qed.

Lemma tidyCells_appendToBuffer (text : string) (s : Component) :
  tidyCells (appendToBuffer text s)
  = (timers s, nextTimer s, errorTimeout s, errorBuffer (appendToBuffer text s),
     terminalErrors s).
Proof.
  unfold appendToBuffer, tidyCells. destruct s. cbn [errorBuffer set_errorBuffer].
  by destruct (Nat.ltb _ _).
Qed.

Lemma append_nonempty (a b : string) : a <> "" \/ b <> "" -> a ++ b <> "".
Proof. intros [Ha|Hb]; destruct a; try done. Qed.

Lemma appendToBuffer_nonempty (text : string) (s : Component) :
  errorBuffer s <> "" \/ text <> "" -> errorBuffer (appendToBuffer text s) <> "".
Proof.
  intros Hne. rewrite errorBuffer_appendToBuffer.
  destruct (Nat.ltb _ _) eqn:Hlong; [|by apply append_nonempty].
  apply Nat.ltb_lt in Hlong. intros Hempty.
  assert (Hlen : String.length
            (Text.slice_last 1000 (errorBuffer s ++ text)) = 1000).
  { unfold Text.slice_last. apply substring_length. lia. }
  rewrite Hempty in Hlen. done.
Qed.

Lemma NoDup_map_filter (P : Timer -> bool) (ts : list Timer) :
  NoDup (List.map timerId ts) -> NoDup (List.map timerId (List.filter P ts)).
Proof.
  induction ts as [|t ts IH]; intros Hnd; [done|].
  cbn [List.map] in Hnd. apply NoDup_cons in Hnd as [Hnotin Hnd].
  cbn [List.filter]. destruct (P t); [|by apply IH].
  cbn [List.map]. apply NoDup_cons. split; [|by apply IH].
  intros Hin. apply Hnotin. apply list_elem_of_In in Hin. apply list_elem_of_In.
  apply in_map_iff in Hin as (u & Hu & Hin). apply filter_In in Hin as [Hin _].
  apply in_map_iff. by exists u.
Qed.

Lemma NoDup_map_snoc (ts : list Timer) (t : Timer) :
  NoDup (List.map timerId ts) ->
  (forall u, In u ts -> timerId u <> timerId t) ->
  NoDup (List.map timerId (ts ++ [t])).
Proof.
  intros Hnd Hfresh. rewrite map_app. apply NoDup_app. split; [done|]. split.
  - intros x Hx Hx'. cbn in Hx'. apply list_elem_of_singleton in Hx'. subst x.
    apply list_elem_of_In, in_map_iff in Hx as (u & Hu & Hin).
    by apply (Hfresh u Hin).
  - cbn. apply NoDup_singleton.
Qed.

(** Scheduling the error report. *)
Lemma tidy_debounceReport (cb : bool) (s : Component) :
  tidy s -> errorBuffer s <> "" -> tidy (debounceReport cb s).
Proof.
  intros (Hlt & Hnd & Hrep & Hbuf & Hout) Hne.
  destruct s as [? ? ? buf tmo ? ? ? ? ? ? ts n now outs].
  cbn [timers nextTimer errorTimeout errorBuffer terminalErrors] in *.
  unfold debounceReport, setTimeout, clearTimeout.
  destruct tmo as [id|];
    cbn [timers nextTimer errorTimeout errorBuffer terminalErrors clock set_timers
         set_nextTimer set_errorTimeout];
    unfold tidy, pendingReports;
    cbn [timers nextTimer errorTimeout errorBuffer terminalErrors].
  - split; [|split; [|split; [|split; [done|done]]]].
    + intros t [Hin| [<-|[]]]%in_app_or; [|cbn; lia].
      apply filter_In in Hin as [Hin _]. specialize (Hlt t Hin). lia.
    + apply NoDup_map_snoc; [by apply NoDup_map_filter|].
      intros u Hu. apply filter_In in Hu as [Hu _]. specialize (Hlt u Hu). cbn. lia.
    + intros t [Hin| [<-|[]]]%in_app_or Ht; [|done].
      apply filter_In in Hin as [Hin Hid]. specialize (Hrep t Hin Ht).
      injection Hrep as ->. by rewrite Nat.eqb_refl in Hid.
  - split; [|split; [|split; [|split; [done|done]]]].
    + intros t [Hin| [<-|[]]]%in_app_or; [|cbn; lia]. specialize (Hlt t Hin). lia.
    + apply NoDup_map_snoc; [done|].
      intros u Hu. specialize (Hlt u Hu). cbn. lia.
    + intros t [Hin| [<-|[]]]%in_app_or Ht; [|done]. by specialize (Hrep t Hin Ht).
Qed.

(** Scheduling the return to ["ready"]. *)
Lemma tidy_backToReady (ms : N) (s : Component) :
  tidy s -> tidy (snd (setTimeout backToReady ms s)).
Proof.
  intros (Hlt & Hnd & Hrep & Hbuf & Hout).
  destruct s as [? ? ? buf tmo ? ? ? ? ? ? ts n now outs].
  cbn [timers nextTimer errorTimeout errorBuffer terminalErrors] in *.
  unfold setTimeout, tidy, pendingReports in *.
  cbn [snd timers nextTimer errorTimeout errorBuffer terminalErrors clock set_timers
       set_nextTimer] in *.
  split; [|split; [|split; [|split; [|done]]]].
  - intros t [Hin| [<-|[]]]%in_app_or; [|cbn; lia]. specialize (Hlt t Hin). lia.
  - apply NoDup_map_snoc; [done|].
    intros u Hu. specialize (Hlt u Hu). cbn. lia.
  - intros t [Hin| [<-|[]]]%in_app_or Ht; [by apply Hrep|done].
  - rewrite List.filter_app. cbn. by rewrite app_nil_r.
Qed.

Lemma count_insertByDue (P : Timer -> bool) (t : Timer) (l : list Timer) :
  length (List.filter P (insertByDue t l)) = length (List.filter P (t :: l)).
Proof.
  induction l as [|u l IH]; [done|].
  cbn [insertByDue]. destruct (N.ltb (due t) (due u)); [done|].
  cbn [List.filter] in *. destruct (P u), (P t); cbn [length] in *; lia.
Qed.

Lemma count_dueOrder (P : Timer -> bool) (l : list Timer) :
  forall acc,
    length (List.filter P (fold_left (fun acc t => insertByDue t acc) l acc))
    = length (List.filter P l) + length (List.filter P acc).
Proof.
  induction l as [|t l IH]; intros acc; [done|].
  cbn [fold_left]. rewrite IH, count_insertByDue.
  cbn [List.filter]. destruct (P t); cbn [length]; lia.
Qed.

Lemma count_split (P Q : Timer -> bool) (l : list Timer) :
  length (List.filter P (List.filter Q l))
  + length (List.filter P (List.filter (fun t => negb (Q t)) l))
  = length (List.filter P l).
Proof.
  induction l as [|t l IH]; [done|].
  cbn [List.filter]. destruct (Q t), (P t) eqn:Hp; cbn [negb List.filter length];
    rewrite ?Hp; cbn [length]; lia.
Qed.

(** Running the callbacks of the timers that fired, of which at most one
    is an error report. *)
Lemma fold_callbacks (fired : list Timer) :
  forall s,
    length (List.filter isReport fired) <= 1 ->
    (List.filter isReport fired <> [] -> errorBuffer s <> "") ->
    ~ In "" (terminalErrors s) ->
    let s' := fold_left (fun s t => runCallback (callback t) s) fired s in
    ~ In "" (terminalErrors s') /\
    (List.filter isReport fired = [] -> errorBuffer s' = errorBuffer s) /\
    timers s' = timers s /\ nextTimer s' = nextTimer s /\
    errorTimeout s' = errorTimeout s.
Proof.
  induction fired as [|t fired IH]; intros s Hone Hbuf Hout; [done|].
  cbn [fold_left List.filter] in *.
  destruct (callback t) as [cb|] eqn:Hcb.
  - assert (Ht : isReport t = true) by (unfold isReport; by rewrite Hcb).
    rewrite Ht in *. cbn [length] in Hone.
    assert (Hnone : List.filter isReport fired = []).
    { destruct (List.filter isReport fired); [done|cbn in Hone; lia]. }
    specialize (Hbuf ltac:(done)).
    destruct (IH (runCallback (reportErrors cb) s)) as (H1 & H2 & H3 & H4 & H5).
    + rewrite Hnone. cbn. lia.
    + by rewrite Hnone.
    + destruct s, cb; cbn [runCallback terminalErrors set_errorBuffer set_terminalErrors
                           errorBuffer] in *; [|done].
      intros [Hin|[Heq|[]]]%in_app_or; [done|]. by symmetry in Heq.
    + cbn zeta. split; [done|]. split; [done|].
      rewrite H3, H4, H5. by destruct s, cb.
  - assert (Ht : isReport t = false) by (unfold isReport; by rewrite Hcb).
    rewrite Ht in *.
    destruct (IH (runCallback backToReady s)) as (H1 & H2 & H3 & H4 & H5).
    + done.
    + intros Hne. specialize (Hbuf Hne). by destruct s.
    + by destruct s.
    + cbn zeta. split; [done|]. split.
      * intros Hnone. rewrite (H2 Hnone). by destruct s.
      * rewrite H3, H4, H5. by destruct s.
Qed.

Lemma tidy_elapse (ms : N) (s : Component) : tidy s -> tidy (elapse ms s).
Proof.
  intros Htidy. pose proof (tidy_one_report s Htidy) as Hone.
  destruct Htidy as (Hlt & Hnd & Hrep & Hbuf & Hout).
  unfold elapse, dueTimers. cbn zeta.
  set (s1 := set_clock (clock s + ms)%N s).
  set (isDue := fun t : Timer => N.leb (due t) (clock s1)).
  set (fired := fold_left (fun acc t => insertByDue t acc)
                  (List.filter isDue (timers s1)) []).
  set (s2 := set_timers
               (List.filter (fun t => negb (N.leb (due t) (clock s1))) (timers s1)) s1).
  assert (Hs1 : timers s1 = timers s) by (subst s1; by destruct s).
  assert (Hs2 : timers s2 = List.filter (fun t => negb (isDue t)) (timers s)
                /\ nextTimer s2 = nextTimer s /\ errorTimeout s2 = errorTimeout s
                /\ errorBuffer s2 = errorBuffer s /\ terminalErrors s2 = terminalErrors s).
  { subst s2. rewrite Hs1. subst s1 isDue. by destruct s. }
  destruct Hs2 as (Ht2 & Hn2 & He2 & Hb2 & Ho2).
  assert (Hcount : length (List.filter isReport fired)
                   = length (List.filter isReport (List.filter isDue (timers s)))).
  { subst fired. rewrite count_dueOrder, Hs1. cbn. lia. }
  pose proof (count_split isReport isDue (timers s)) as Hsplit.
  unfold pendingReports in Hone, Hbuf.
  destruct (fold_callbacks fired s2) as (H1 & H2 & H3 & H4 & H5).
  { lia. }
  { intros Hne. rewrite Hb2. apply Hbuf. intros Hall.
    rewrite Hall in Hsplit. cbn [length] in Hsplit.
    destruct (List.filter isReport fired); [done|]. cbn [length] in Hcount. lia. }
  { by rewrite Ho2. }
  cbn zeta in H1, H2, H3, H4, H5.
  unfold tidy, pendingReports. rewrite H3, H4, H5, Ht2, Hn2, He2.
  split; [|split; [|split; [|split; [|done]]]].
  - intros t Hin. apply filter_In in Hin as [Hin _]. by apply Hlt.
  - by apply NoDup_map_filter.
  - intros t Hin Ht. apply filter_In in Hin as [Hin _]. by apply Hrep.
  - intros Hne.
    assert (Hleft : 0 < length (List.filter isReport
                      (List.filter (fun t => negb (isDue t)) (timers s)))).
    { destruct (List.filter isReport (List.filter (fun t => negb (isDue t)) (timers s)));
        [done|cbn; lia]. }
    rewrite H2, Hb2.
    + apply Hbuf. intros Hall. rewrite Hall in Hsplit. cbn [length] in Hsplit. lia.
    + destruct (List.filter isReport fired); [done|]. cbn [length] in Hcount. lia.
Qed.

Lemma tidy_appendToBuffer (text : string) (s : Component) :
  tidy s -> tidy (appendToBuffer text s).
Proof.
  intros (Hlt & Hnd & Hrep & Hbuf & Hout).
  pose proof (tidyCells_appendToBuffer text s) as [= Ht Hn He Hr].
  unfold tidy, pendingReports. rewrite Ht, Hn, He, Hr.
  repeat (split; [done|]). split; [|done].
  intros Hne. apply appendToBuffer_nonempty. left. by apply Hbuf.
Qed.

Lemma errorRegex_nonempty (text : string) : Text.errorRegex text = true -> text <> "".
Proof. intros Hm ->. by rewrite errorRegex_empty in Hm. Qed.

Lemma tidy_scanForErrors (cb : bool) (text : string) (s : Component) :
  tidy s -> tidy (scanForErrors cb text s).
Proof.
  intros Htidy. unfold scanForErrors. cbn zeta.
  destruct (Text.errorRegex text || Text.errorRegex (errorBuffer (appendToBuffer text s)))
    eqn:Hm; [|by apply tidy_appendToBuffer].
  apply tidy_debounceReport; [by apply tidy_appendToBuffer|].
  apply orb_true_iff in Hm as [Hm|Hm]; [|by apply errorRegex_nonempty].
  apply appendToBuffer_nonempty. right. by apply errorRegex_nonempty.
Qed.

Lemma tidy_onError (cb : bool) (data : string) (s : Component) :
  tidy s -> tidy (onError cb data s).
Proof.
  intros Htidy. unfold onError. destruct (Text.errorRegex data) eqn:Hm; [|done].
  apply tidy_debounceReport; [by apply tidy_appendToBuffer|].
  apply appendToBuffer_nonempty. right. by apply errorRegex_nonempty.
Qed.

Lemma tidy_onCompiling (data : string) (s : Component) :
  tidy s -> tidy (onCompiling data s).
Proof.
  unfold onCompiling. intros Htidy.
  destruct (Text.includes _ _); [|done]. destruct (negb _); [|done].
  apply (tidy_ext s); [by destruct s|done].
Qed.

Lemma tidy_onCompiled (data : string) (s : Component) :
  tidy s -> tidy (onCompiled data s).
Proof.
  unfold onCompiled. intros Htidy. destruct (_ || _); [|done]. cbn zeta.
  apply tidy_backToReady.
  apply (tidy_ext s); [|done]. destruct (Text.capture_after _ _ _ _); by destruct s.
Qed.

Lemma tidy_onFastRefreshRebuilding (data : string) (s : Component) :
  tidy s -> tidy (onFastRefreshRebuilding data s).
Proof.
  unfold onFastRefreshRebuilding. intros Htidy.
  destruct (Text.includes _ _); [|done]. destruct (negb _); [|done].
  apply (tidy_ext s); [by destruct s|done].
Qed.

Lemma tidy_onFastRefreshDone (data : string) (s : Component) :
  tidy s -> tidy (onFastRefreshDone data s).
Proof.
  unfold onFastRefreshDone. intros Htidy. destruct (Text.includes _ _); [|done].
  cbn zeta. apply tidy_backToReady.
  apply (tidy_ext s); [|done]. destruct (Text.capture_after _ _ _ _); by destruct s.
Qed.

Lemma tidy_onReady (data : string) (s : Component) :
  tidy s -> tidy (onReady data s).
Proof.
  unfold onReady. intros Htidy. destruct (Text.includes _ _); [|done]. cbn zeta.
  apply (tidy_ext s); [|done]. destruct (Text.capture_after _ _ _ _); by destruct s.
Qed.

Lemma tidy_scanner (v : Variant) (cb : bool) (text : string) (s : Component) :
  tidy s -> tidy (scanner v cb text s).
Proof.
  intros Htidy. destruct v; cbn [scanner]; [by apply tidy_scanForErrors|].
  unfold processLog. cbn zeta.
  by apply tidy_onError, tidy_onReady, tidy_onFastRefreshDone,
    tidy_onFastRefreshRebuilding, tidy_onCompiled, tidy_onCompiling.
Qed.

Lemma tidy_feed (v : Variant) (s : Component) (ev : Feed) : tidy s -> tidy (feed v s ev).
Proof. destruct ev; cbn [feed]; [apply tidy_scanner|apply tidy_elapse]. Qed.

Lemma tidy_feeds (v : Variant) (evs : list Feed) (s : Component) :
  tidy s -> tidy (fold_left (feed v) evs s).
Proof.
  revert s. induction evs as [|ev evs IH]; intros s Htidy; [done|].
  cbn [fold_left]. by apply IH, tidy_feed.
Qed.

(** *** The debounced report, from any state the scanner can be in *)

Lemma filter_filter_comm (P Q : Timer -> bool) (l : list Timer) :
  List.filter P (List.filter Q l) = List.filter Q (List.filter P l).
Proof.
  induction l as [|t l IH]; [done|].
  cbn [List.filter]. destruct (P t) eqn:Hp, (Q t) eqn:Hq; cbn [List.filter];
    rewrite ?Hp, ?Hq; by rewrite IH.
Qed.

Lemma filter_all (P : Timer -> bool) (l : list Timer) :
  (forall t, In t l -> P t = true) -> List.filter P l = l.
Proof.
  induction l as [|t l IH]; intros HP; [done|].
  cbn [List.filter]. rewrite (HP t) by (by left).
  f_equal. apply IH. intros u Hu. apply HP. by right.
Qed.

Lemma filter_none (P : Timer -> bool) (l : list Timer) :
  (forall t, In t l -> P t = false) -> List.filter P l = [].
Proof.
  induction l as [|t l IH]; intros HP; [done|].
  cbn [List.filter]. rewrite (HP t) by (by left).
  apply IH. intros u Hu. apply HP. by right.
Qed.

Lemma filter_perm (P : Timer -> bool) (l l' : list Timer) :
  l ≡ₚ l' -> List.filter P l ≡ₚ List.filter P l'.
Proof.
  induction 1 as [|x l l' _ IH|x y l|l l' l'' _ IH1 _ IH2]; cbn [List.filter].
  - done.
  - destruct (P x); [by constructor|done].
  - destruct (P x), (P y); try done. apply perm_swap.
  - by etrans.
Qed.

Lemma insertByDue_perm (t : Timer) (l : list Timer) : insertByDue t l ≡ₚ t :: l.
Proof.
  induction l as [|u l IH]; [done|].
  cbn [insertByDue]. destruct (N.ltb (due t) (due u)); [done|].
  rewrite IH. apply perm_swap.
Qed.

Lemma dueOrder_perm (l : list Timer) :
  forall acc, fold_left (fun acc t => insertByDue t acc) l acc ≡ₚ l ++ acc.
Proof.
  induction l as [|t l IH]; intros acc; [done|].
  cbn [fold_left]. rewrite IH, insertByDue_perm. cbn [app].
  by rewrite Permutation_middle.
Qed.

(** No callback touches the timer table or the clock. *)
Lemma callbacks_frame (fired : list Timer) :
  forall s,
    let s' := fold_left (fun s t => runCallback (callback t) s) fired s in
    timers s' = timers s /\ clock s' = clock s /\
    nextTimer s' = nextTimer s /\ errorTimeout s' = errorTimeout s.
Proof.
  induction fired as [|t fired IH]; intros s; [done|].
  cbn [fold_left]. cbn zeta.
  destruct (IH (runCallback (callback t) s)) as (H1 & H2 & H3 & H4).
  rewrite H1, H2, H3, H4. by destruct s, (callback t) as [[]|].
Qed.

(** Callbacks none of which is an error report leave the buffer and the
    reports alone. *)
Lemma callbacks_quiet (fired : list Timer) :
  forall s,
    List.filter isReport fired = [] ->
    let s' := fold_left (fun s t => runCallback (callback t) s) fired s in
    errorBuffer s' = errorBuffer s /\ terminalErrors s' = terminalErrors s.
Proof.
  induction fired as [|t fired IH]; intros s Hnone; [done|].
  cbn [fold_left List.filter] in *. cbn zeta.
  unfold isReport in Hnone at 1. destruct (callback t) as [cb|] eqn:Hcb; [done|].
  destruct (IH (runCallback backToReady s) Hnone) as (H1 & H2).
  rewrite H1, H2. by destruct s.
Qed.

(** Callbacks of which exactly one is an error report. *)
Lemma callbacks_one_report (fired : list Timer) (t : Timer) (cb : bool) :
  forall s,
    List.filter isReport fired = [t] -> callback t = reportErrors cb ->
    let s' := fold_left (fun s t => runCallback (callback t) s) fired s in
    errorBuffer s' = (if cb then "" else errorBuffer s) /\
    terminalErrors s'
    = (if cb then (terminalErrors s ++ [errorBuffer s])%list else terminalErrors s).
Proof.
  induction fired as [|u fired IH]; intros s Hone Ht; [done|].
  cbn [fold_left List.filter] in *. cbn zeta.
  destruct (isReport u) eqn:Hu.
  - injection Hone as -> Hnone. rewrite Ht.
    destruct (callbacks_quiet fired (runCallback (reportErrors cb) s) Hnone) as (H1 & H2).
    rewrite H1, H2. by destruct s, cb.
  - unfold isReport in Hu. destruct (callback u) as [?|] eqn:Hcb; [done|].
    destruct (IH (runCallback backToReady s) Hone Ht) as (H1 & H2).
    rewrite H1, H2. by destruct s.
Qed.

Lemma elapse_cells (ms : N) (s : Component) :
  let fired := dueTimers (set_clock (clock s + ms)%N s) in
  elapse ms s
  = fold_left (fun s t => runCallback (callback t) s) fired
      (set_timers (List.filter (fun t => negb (N.leb (due t) (clock s + ms)%N)) (timers s))
                  (set_clock (clock s + ms)%N s)) /\
  List.filter isReport fired
  ≡ₚ List.filter (fun t => N.leb (due t) (clock s + ms)%N) (pendingReports s).
Proof.
  cbn zeta. split; [unfold elapse; by destruct s|].
  unfold dueTimers, pendingReports.
  rewrite (filter_perm isReport _ _ (dueOrder_perm _ [])), app_nil_r.
  rewrite filter_filter_comm. by destruct s.
Qed.

(** Time passes and no pending report comes due. *)
Lemma elapse_quiet (ms : N) (s : Component) :
  (forall t, In t (pendingReports s) -> (clock s + ms < due t)%N) ->
  pendingReports (elapse ms s) = pendingReports s /\
  errorBuffer (elapse ms s) = errorBuffer s /\
  terminalErrors (elapse ms s) = terminalErrors s /\
  clock (elapse ms s) = (clock s + ms)%N.
Proof.
  intros Hlater. destruct (elapse_cells ms s) as [-> Hfired].
  set (fired := dueTimers _) in *. clearbody fired.
  set (s1 := set_timers _ _).
  rewrite (filter_none _ (pendingReports s)) in Hfired
    by (intros t Ht; apply N.leb_gt; by apply Hlater).
  apply Permutation_nil_r in Hfired.
  destruct (callbacks_frame fired s1) as (H1 & H2 & _ & _).
  destruct (callbacks_quiet fired s1 Hfired) as (H3 & H4).
  cbn zeta in *. unfold pendingReports at 1. rewrite H1, H2, H3, H4.
  subst s1. split; [|by destruct s].
  replace (timers (set_timers _ _)) with
    (List.filter (fun t => negb (N.leb (due t) (clock s + ms)%N)) (timers s))
    by (by destruct s).
  rewrite filter_filter_comm. apply filter_all.
  intros t Ht. apply negb_true_iff, N.leb_gt. by apply Hlater.
Qed.

(** Time passes and the one pending report comes due. *)
Lemma elapse_reports (ms : N) (s : Component) (t : Timer) (cb : bool) :
  pendingReports s = [t] -> callback t = reportErrors cb ->
  (due t <= clock s + ms)%N ->
  pendingReports (elapse ms s) = [] /\
  errorBuffer (elapse ms s) = (if cb then "" else errorBuffer s) /\
  terminalErrors (elapse ms s)
  = (if cb then (terminalErrors s ++ [errorBuffer s])%list else terminalErrors s).
Proof.
  intros Hone Hcb Hdue. destruct (elapse_cells ms s) as [-> Hfired].
  set (fired := dueTimers _) in *. clearbody fired.
  set (s1 := set_timers _ _).
  rewrite Hone in Hfired. cbn [List.filter] in Hfired.
  apply N.leb_le in Hdue. rewrite Hdue in Hfired.
  apply Permutation_singleton_r in Hfired.
  destruct (callbacks_frame fired s1) as (H1 & _ & _ & _).
  destruct (callbacks_one_report fired t cb s1 Hfired Hcb) as (H3 & H4).
  cbn zeta in *. unfold pendingReports at 1. rewrite H1, H3, H4.
  subst s1.
  replace (timers (set_timers _ _)) with
    (List.filter (fun t => negb (N.leb (due t) (clock s + ms)%N)) (timers s))
    by (by destruct s).
  rewrite filter_filter_comm. fold (pendingReports s). rewrite Hone.
  cbn [List.filter]. rewrite Hdue. cbn [negb].
  split; [done|]. by destruct s.
Qed.

Lemma reportCells_eq (s s' : Component) :
  reportCells s' = reportCells s ->
  pendingReports s' = pendingReports s /\ errorBuffer s' = errorBuffer s /\
  terminalErrors s' = terminalErrors s /\ clock s' = clock s.
Proof. by intros [= -> -> -> ->]. Qed.

Lemma appendToBuffer_cong (text : string) (s s' : Component) :
  errorBuffer s' = errorBuffer s ->
  errorBuffer (appendToBuffer text s') = errorBuffer (appendToBuffer text s).
Proof. intros Heq. by rewrite !errorBuffer_appendToBuffer, Heq. Qed.

Lemma appendToBuffer_cells (text : string) (s : Component) :
  pendingReports (appendToBuffer text s) = pendingReports s /\
  terminalErrors (appendToBuffer text s) = terminalErrors s /\
  clock (appendToBuffer text s) = clock s.
Proof.
  unfold appendToBuffer, pendingReports. destruct s.
  cbn [errorBuffer set_errorBuffer]. by destruct (Nat.ltb _ _).
Qed.

(** The debounce leaves exactly one report pending: the one it has just
    scheduled, due a second later. *)
Lemma debounceReport_cells (cb : bool) (s : Component) :
  tidy s ->
  pendingReports (debounceReport cb s)
  = [mkTimer (nextTimer s) (clock s + 1000)%N (reportErrors cb)] /\
  errorBuffer (debounceReport cb s) = errorBuffer s /\
  terminalErrors (debounceReport cb s) = terminalErrors s /\
  clock (debounceReport cb s) = clock s.
Proof.
  intros (_ & _ & Hrep & _ & _).
  destruct s as [? ? ? buf tmo ? ? ? ? ? ? ts n now outs].
  cbn [timers nextTimer errorTimeout errorBuffer terminalErrors clock] in *.
  unfold debounceReport, setTimeout, clearTimeout, pendingReports.
  destruct tmo as [id|];
    cbn [timers nextTimer errorTimeout errorBuffer terminalErrors clock set_timers
         set_nextTimer set_errorTimeout];
    (split; [|done]); rewrite List.filter_app; cbn [List.filter isReport callback].
  - rewrite filter_filter_comm, filter_none; [done|].
    intros t [Hin Ht]%filter_In. specialize (Hrep t Hin Ht).
    injection Hrep as ->. by rewrite Nat.eqb_refl.
  - rewrite filter_none; [done|].
    intros t Hin. destruct (isReport t) eqn:Ht; [|done]. by specialize (Hrep t Hin Ht).
Qed.

(** The progress blocks of [processLog] touch neither the reports nor
    the buffer. *)
Lemma onCompiling_cells (data : string) (s : Component) :
  reportCells (onCompiling data s) = reportCells s.
Proof.
  unfold onCompiling. destruct (Text.includes _ _); [|done].
  destruct (negb _); [|done]. by destruct s.
Qed.

Lemma backToReady_cells (ms : N) (s : Component) :
  reportCells (snd (setTimeout backToReady ms s)) = reportCells s.
Proof.
  unfold reportCells, pendingReports, setTimeout. destruct s.
  cbn [snd timers set_timers set_nextTimer errorBuffer terminalErrors clock].
  rewrite List.filter_app. cbn. by rewrite app_nil_r.
Qed.

Lemma onCompiled_cells (data : string) (s : Component) :
  reportCells (onCompiled data s) = reportCells s.
Proof.
  unfold onCompiled. destruct (_ || _); [|done]. cbn zeta.
  rewrite backToReady_cells. destruct (Text.capture_after _ _ _ _); by destruct s.
Qed.

Lemma onFastRefreshRebuilding_cells (data : string) (s : Component) :
  reportCells (onFastRefreshRebuilding data s) = reportCells s.
Proof.
  unfold onFastRefreshRebuilding. destruct (Text.includes _ _); [|done].
  destruct (negb _); [|done]. by destruct s.
Qed.

Lemma onFastRefreshDone_cells (data : string) (s : Component) :
  reportCells (onFastRefreshDone data s) = reportCells s.
Proof.
  unfold onFastRefreshDone. destruct (Text.includes _ _); [|done]. cbn zeta.
  rewrite backToReady_cells. destruct (Text.capture_after _ _ _ _); by destruct s.
Qed.

Lemma onReady_cells (data : string) (s : Component) :
  reportCells (onReady data s) = reportCells s.
Proof.
  unfold onReady. destruct (Text.includes _ _); [|done]. cbn zeta.
  destruct (Text.capture_after _ _ _ _); by destruct s.
Qed.

(** [processLog] is its error block run after its progress blocks, which
    keep the invariant and the cells. *)
Lemma processLog_blocks (cb : bool) (data : string) (s : Component) :
  tidy s ->
  exists s', processLog cb data s = onError cb data s' /\
             tidy s' /\ reportCells s' = reportCells s.
Proof.
  intros Htidy. eexists. split; [reflexivity|]. split.
  - by apply tidy_onReady, tidy_onFastRefreshDone, tidy_onFastRefreshRebuilding,
      tidy_onCompiled, tidy_onCompiling.
  - by rewrite onReady_cells, onFastRefreshDone_cells, onFastRefreshRebuilding_cells,
      onCompiled_cells, onCompiling_cells.
Qed.

(** A chunk with a failure marker: whatever was pending, one report is
    pending afterwards, due a second later. *)
Lemma scanner_marker (v : Variant) (cb : bool) (text : string) (s : Component) :
  tidy s -> Text.errorRegex text = true ->
  exists id,
    pendingReports (scanner v cb text s)
    = [mkTimer id (clock s + 1000)%N (reportErrors cb)] /\
    errorBuffer (scanner v cb text s) = errorBuffer (appendToBuffer text s) /\
    terminalErrors (scanner v cb text s) = terminalErrors s /\
    clock (scanner v cb text s) = clock s.
Proof.
  intros Htidy Hm. destruct v; cbn [scanner].
  - unfold scanForErrors. cbn zeta. rewrite Hm. cbn [orb].
    destruct (debounceReport_cells cb (appendToBuffer text s)) as (H1 & H2 & H3 & H4);
      [by apply tidy_appendToBuffer|].
    destruct (appendToBuffer_cells text s) as (_ & H5 & H6).
    eexists. rewrite H1, H2, H3, H4, H5, H6. done.
  - destruct (processLog_blocks cb text s Htidy) as (s' & -> & Htidy' & Hcells).
    apply reportCells_eq in Hcells as (_ & Hb & Ho & Hc).
    unfold onError. rewrite Hm.
    destruct (debounceReport_cells cb (appendToBuffer text s')) as (H1 & H2 & H3 & H4);
      [by apply tidy_appendToBuffer|].
    destruct (appendToBuffer_cells text s') as (_ & H5 & H6).
    eexists. rewrite H1, H2, H3, H4, H5, H6, Hc, Ho.
    by rewrite (appendToBuffer_cong text s s' Hb).
Qed.

(** Any chunk, while one report is pending and due within a second: one
    report is pending afterwards, due within a second, and the buffer has
    grown by the chunk if the variant appends it. *)
Lemma scanner_pending (v : Variant) (cb : bool) (text : string) (s : Component)
    (t : Timer) :
  tidy s ->
  pendingReports s = [t] -> callback t = reportErrors cb ->
  (due t <= clock s + 1000)%N ->
  exists t',
    pendingReports (scanner v cb text s) = [t'] /\
    callback t' = reportErrors cb /\
    (due t' <= clock s + 1000)%N /\
    errorBuffer (scanner v cb text s)
    = match v with
      | part_002 => errorBuffer (appendToBuffer text s)
      | part_003 =>
          if Text.errorRegex text then errorBuffer (appendToBuffer text s)
          else errorBuffer s
      end /\
    terminalErrors (scanner v cb text s) = terminalErrors s /\
    clock (scanner v cb text s) = clock s.
Proof.
  intros Htidy Hone Hcb Hdue. destruct v; cbn [scanner].
  - unfold scanForErrors. cbn zeta.
    destruct (appendToBuffer_cells text s) as (H4 & H5 & H6).
    destruct (_ || _).
    + destruct (debounceReport_cells cb (appendToBuffer text s)) as (H1 & H2 & H3 & H7);
        [by apply tidy_appendToBuffer|].
      eexists. rewrite H1, H2, H3, H7, H5, H6. split; [done|]. cbn. done.
    + exists t. by rewrite H4, H5, H6.
  - destruct (processLog_blocks cb text s Htidy) as (s' & -> & Htidy' & Hcells).
    apply reportCells_eq in Hcells as (Hr & Hb & Ho & Hc).
    unfold onError. destruct (Text.errorRegex text).
    + destruct (debounceReport_cells cb (appendToBuffer text s')) as (H1 & H2 & H3 & H4);
        [by apply tidy_appendToBuffer|].
      destruct (appendToBuffer_cells text s') as (_ & H5 & H6).
      eexists. rewrite H1, H2, H3, H4, H5, H6, Hc, Ho.
      rewrite (appendToBuffer_cong text s s' Hb). split; [done|]. cbn. done.
    + exists t. by rewrite Hr, Hb, Ho, Hc.
Qed.

Lemma append_assoc (a b c : string) : (a ++ b) ++ c = a ++ b ++ c.
Proof.
  induction a as [|x a IH]; [done|].
  change ((String x a ++ b) ++ c) with (String x ((a ++ b) ++ c)). by rewrite IH.
Qed.

(** C6, as the code has it.  After any history of output and silence, a
    chunk with a failure marker, a second chunk less than a second later,
    then at least a second of silence: the error callback, when there is
    one, is called exactly once in that time, with the buffer as it then
    is, and the buffer is empty afterwards; when there is none, nothing
    is reported and the buffer is kept.  No report is left pending.  With
    [scanForErrors] (part_002) both chunks are in the buffer; with
    [processLog] (part_003) the second chunk is in it only if it matches
    a marker itself.  While the buffer stays within 2000 characters the
    report is what the buffer held before, followed by the chunks that
    entered it. *)
Theorem error_debounce_one_report
    (v : Variant) (files0 : FileMap) (history : list Feed) (onTerminalError : bool)
    (c1 c2 : string) (d d' : N) :
  Text.errorRegex c1 = true -> (d < 1000)%N -> (1000 <= d')%N ->
  let s := fold_left (feed v) history (mountComponent files0) in
  let fed := elapse d' (scanner v onTerminalError c2
               (elapse d (scanner v onTerminalError c1 s))) in
  let report :=
    match v with
    | part_002 => errorBuffer (appendToBuffer c2 (appendToBuffer c1 s))
    | part_003 =>
        if Text.errorRegex c2
        then errorBuffer (appendToBuffer c2 (appendToBuffer c1 s))
        else errorBuffer (appendToBuffer c1 s)
    end in
  terminalErrors fed
  = (if onTerminalError then (terminalErrors s ++ [report])%list else terminalErrors s) /\
  errorBuffer fed = (if onTerminalError then "" else report) /\
  pendingReports fed = [] /\
  (String.length (errorBuffer s) + String.length c1 + String.length c2 <= 2000 ->
   report = match v with
            | part_002 => errorBuffer s ++ c1 ++ c2
            | part_003 =>
                if Text.errorRegex c2 then errorBuffer s ++ c1 ++ c2
                else errorBuffer s ++ c1
            end).
Proof.
  intros Hm Hd Hd' s fed report. rename onTerminalError into cb.
  assert (Htidy : tidy s) by apply tidy_feeds, tidy_mount.
  destruct (scanner_marker v cb c1 s Htidy Hm) as (id & Hr1 & Hb1 & Ho1 & Hc1).
  pose proof (tidy_scanner v cb c1 s Htidy) as Htidy1.
  set (s1 := scanner v cb c1 s) in *.
  destruct (elapse_quiet d s1) as (Hr2 & Hb2 & Ho2 & Hc2).
  { rewrite Hr1. intros t [<-|[]]. cbn [due]. lia. }
  pose proof (tidy_elapse d s1 Htidy1) as Htidy2.
  set (s2 := elapse d s1) in *.
  destruct (scanner_pending v cb c2 s2 _ Htidy2 (eq_trans Hr2 Hr1) eq_refl)
    as (t & Hr3 & Hcb & Hdue & Hb3 & Ho3 & Hc3).
  { cbn [due]. lia. }
  set (s3 := scanner v cb c2 s2) in *.
  destruct (elapse_reports d' s3 t cb Hr3 Hcb) as (Hr4 & Hb4 & Ho4).
  { rewrite Hc3. lia. }
  assert (Hreport : errorBuffer s3 = report).
  { rewrite Hb3. subst report. destruct v.
    - apply appendToBuffer_cong. by rewrite Hb2.
    - destruct (Text.errorRegex c2).
      + apply appendToBuffer_cong. by rewrite Hb2.
      + by rewrite Hb2. }
  subst fed. rewrite Ho4, Hb4, Hr4, Hreport, Ho3, Ho2, Ho1.
  split; [done|]. split; [done|]. split; [done|].
  intros Hlen. subst report.
  assert (H1 : errorBuffer (appendToBuffer c1 s) = errorBuffer s ++ c1).
  { rewrite errorBuffer_appendToBuffer.
    destruct (Nat.ltb _ _) eqn:Hlong; [|done].
    apply Nat.ltb_lt in Hlong. rewrite length_append in Hlong. lia. }
  assert (H2 : errorBuffer (appendToBuffer c2 (appendToBuffer c1 s))
               = errorBuffer s ++ c1 ++ c2).
  { rewrite errorBuffer_appendToBuffer, H1, append_assoc.
    destruct (Nat.ltb _ _) eqn:Hlong; [|done].
    apply Nat.ltb_lt in Hlong. rewrite !length_append in Hlong. lia. }
  destruct v; [done|]. by destruct (Text.errorRegex c2).
Qed.

Lemma error_debounce_one_report_witness :
  Text.errorRegex "Compiling /page ... Error: x" = true /\
  (500 < 1000)%N /\ (1000 <= 1000)%N /\
  let s := fold_left (feed part_003) [written true "Compiled in 2s"; silence 100]
             (mountComponent ∅) in
  String.length (errorBuffer s) + String.length "Compiling /page ... Error: x"
  + String.length "details..." <= 2000 /\
  let fed := elapse 1000 (scanner part_003 true "details..."
               (elapse 500 (scanner part_003 true "Compiling /page ... Error: x" s))) in
  let report :=
    if Text.errorRegex "details..."
    then errorBuffer (appendToBuffer "details..."
                        (appendToBuffer "Compiling /page ... Error: x" s))
    else errorBuffer (appendToBuffer "Compiling /page ... Error: x" s) in
  terminalErrors fed = (terminalErrors s ++ [report])%list /\
  errorBuffer fed = "" /\
  pendingReports fed = [] /\
  report = if Text.errorRegex "details..."
           then errorBuffer s ++ "Compiling /page ... Error: x" ++ "details..."
           else errorBuffer s ++ "Compiling /page ... Error: x".
Proof.
  split; [vm_compute; reflexivity|].
  split; [lia|]. split; [lia|].
  cbn zeta. split; [vm_compute; lia|].
  pose proof (error_debounce_one_report part_003 ∅
                [written true "Compiled in 2s"; silence 100] true
                "Compiling /page ... Error: x" "details..." 500%N 1000%N) as Hrun.
  cbn zeta in Hrun.
  destruct Hrun as (Hout & Hbuf & Hpending & Hreport).
  - vm_compute; reflexivity.
  - lia.
  - lia.
  - split; [exact Hout|]. split; [exact Hbuf|]. split; [exact Hpending|].
    apply Hreport. vm_compute; lia.
Defined.

(** C6 as stated fails for [processLog]: fed ["Error: x"], then
    ["details..."] half a second later, then silence, it reports once, and
    the report is ["Error: x"]; the text of the second chunk is not
    in it. *)
Lemma error_debounce_processLog_counterexample :
  let fed := elapse 1000 (processLog true "details..."
               (elapse 500 (processLog true "Error: x" (mountComponent ∅)))) in
  terminalErrors fed = ["Error: x"] /\
  ~ (exists report, terminalErrors fed = [report] /\
                    Text.includes "Error: x" report = true /\
                    Text.includes "details..." report = true).
Proof.
  cbn zeta.
  assert (Hrun : terminalErrors
            (elapse 1000 (processLog true "details..."
               (elapse 500 (processLog true "Error: x" (mountComponent ∅)))))
          = ["Error: x"]) by (vm_compute; reflexivity).
  split; [exact Hrun|].
  intros (report & Hreport & _ & Hdetails).
  rewrite Hrun in Hreport. injection Hreport as <-.
  vm_compute in Hdetails. discriminate.
Qed.

(** *** What the scanners and the timers leave alone *)

Lemma appendToBuffer_setupCells text s :
  setupCells (appendToBuffer text s) = setupCells s.
Proof.
  unfold appendToBuffer. destruct s. cbn [errorBuffer set_errorBuffer].
  by case_match.
Qed.

Lemma debounceReport_setupCells cb s :
  setupCells (debounceReport cb s) = setupCells s.
Proof. unfold debounceReport. destruct s as [? ? ? ? [id|] ? ? ? ? ? ? ? ? ? ?]; done. Qed.

Lemma scanForErrors_setupCells cb text s :
  setupCells (scanForErrors cb text s) = setupCells s.
Proof.
  unfold scanForErrors. destruct (_ || _).
  - by rewrite debounceReport_setupCells, appendToBuffer_setupCells.
  - apply appendToBuffer_setupCells.
Qed.

Lemma processLog_setupCells cb data s :
  setupCells (processLog cb data s) = setupCells s.
Proof.
  unfold processLog.
  assert (H1 : forall s, setupCells (onCompiling data s) = setupCells s).
  { intros []. unfold onCompiling. cbn. by repeat case_match. }
  assert (H2 : forall s, setupCells (onCompiled data s) = setupCells s).
  { intros []. unfold onCompiled. cbn. by repeat case_match. }
  assert (H3 : forall s, setupCells (onFastRefreshRebuilding data s) = setupCells s).
  { intros []. unfold onFastRefreshRebuilding. cbn. by repeat case_match. }
  assert (H4 : forall s, setupCells (onFastRefreshDone data s) = setupCells s).
  { intros []. unfold onFastRefreshDone. cbn. by repeat case_match. }
  assert (H5 : forall s, setupCells (onReady data s) = setupCells s).
  { intros []. unfold onReady. cbn. by repeat case_match. }
  assert (H6 : forall s, setupCells (onError cb data s) = setupCells s).
  { intros s0. unfold onError. destruct (Text.errorRegex data); [|done].
    by rewrite debounceReport_setupCells, appendToBuffer_setupCells. }
  cbn zeta. by rewrite H6, H5, H4, H3, H2, H1.
Qed.

Lemma scanner_setupCells v cb chunk s :
  setupCells (scanner v cb chunk s) = setupCells s.
Proof. destruct v; [apply scanForErrors_setupCells|apply processLog_setupCells]. Qed.

Lemma runCallback_setupCells cb s : setupCells (runCallback cb s) = setupCells s.
Proof. destruct s, cb as [[]|]; done. Qed.

Lemma elapse_setupCells ms s : setupCells (elapse ms s) = setupCells s.
Proof.
  unfold elapse. cbn zeta.
  set (fired := dueTimers _). clearbody fired.
  set (s1 := set_timers _ _).
  assert (Hs1 : setupCells s1 = setupCells s) by (subst s1; by destruct s).
  clearbody s1. revert s1 Hs1.
  induction fired as [|t rest IH]; intros s1 Hs1; [done|].
  cbn [fold_left]. apply IH. by rewrite runCallback_setupCells.
Qed.

Lemma deliver_setupCells v proc chunk s :
  setupCells (deliver v proc chunk s) = setupCells s.
Proof.
  unfold deliver. generalize (pipes s) as l. intros l.
  assert (Hgen : forall s1, setupCells s1 = setupCells s ->
            setupCells (fold_left
              (fun s '(q, sink) =>
                 if Nat.eqb (pid q) (pid proc) then
                   match sink with
                   | toScanner cb => scanner v cb chunk s
                   | logOnly => s
                   end
                 else s) l s1) = setupCells s).
  { induction l as [|[q sink] rest IH]; intros s1 Hs1; [done|].
    cbn [fold_left]. apply IH.
    destruct (Nat.eqb _ _); [|done]. destruct sink; [|done].
    by rewrite scanner_setupCells. }
  by apply Hgen.
Qed.

(** *** Running asynchronous code against a sandbox *)

Section Execution.

Context {FileSystemTree : Type}.
Context (transformFlatMapToWebContainer : FileMap -> FileSystemTree).
Context {E : Type} (answer : E -> forall c : Call FileSystemTree, Result (ret c) * E).

Lemma exec_bind {A B : Type} (m : Async FileSystemTree A) (f : A -> Async FileSystemTree B) :
  forall s e,
    exec answer (bind m f) s e =
    let '(s1, e1, tr1, out1) := exec answer m s e in
    match out1 with
    | inl a =>
        let '(s2, e2, tr2, out2) := exec answer (f a) s1 e1 in
        (s2, e2, (tr1 ++ tr2)%list, out2)
    | inr err => (s1, e1, tr1, inr err)
    end.
Proof.
  induction m as [a|err|k IH|s' k IH|c k IH]; intros s e; cbn [bind exec].
  - by destruct (exec answer (f a) s e) as [[[? ?] ?] ?].
  - done.
  - apply IH.
  - apply IH.
  - destruct (answer e c) as [r e1]. rewrite IH.
    destruct (exec answer (k r) s e1) as [[[s1 e2] tr1] [a|err]]; [|done].
    by destruct (exec answer (f a) s1 e2) as [[[? ?] ?] ?].
Qed.

Lemma exec_modify (f : Component -> Component) s e :
  exec answer (modify f) s e = (f s, e, [], inl tt).
Proof. done. Qed.

(** One deletion: the call is made, and whatever its outcome the loop
    goes on with the state untouched. *)
Lemma exec_syncDeletion (path : string) s e :
  exists e' r,
    exec answer (try_catch (await (fs_rm path)) (fun _ => Ret tt)) s e
    = (s, e', [rm_obs path r], inl tt).
Proof.
  cbn. destruct (answer e (fs_rm path)) as [[[]|err] e']; cbn; eauto.
Qed.

Lemma exec_syncDeletions (deleted : list string) :
  forall s e,
    exists e' rs,
      exec answer (syncDeletions deleted) s e = (s, e', rs, inl tt) /\
      Forall2 (fun path o => exists r, o = rm_obs path r) deleted rs.
Proof.
  induction deleted as [|path rest IH]; intros s e.
  - exists e, []. split; [done|constructor].
  - cbn [syncDeletions]. rewrite exec_bind.
    destruct (exec_syncDeletion path s e) as (e1 & r & ->).
    destruct (IH s e1) as (e2 & rs & -> & Hrs).
    exists e2, (rm_obs path r :: rs). split; [done|].
    constructor; [by exists r|done].
Qed.

Lemma exec_syncWrite (path content : string) s e :
  exists e' block,
    exec answer (syncWrite path content) s e = (s, e', block, inl tt) /\
    attempted path content block.
Proof.
  unfold syncWrite, attempted. cbn zeta.
  destruct (Nat.ltb 1 (length (Text.split "/" path))); cbn.
  - destruct (answer e (fs_mkdir _)) as [[[]|err] e1]; cbn.
    + destruct (answer e1 (fs_writeFile path content)) as [r e2].
      exists e2.
      exists [mkdir_obs (String.concat "/" (removelast (Text.split "/" path))) (Resolved tt);
              writeFile_obs path content r].
      split; [by destruct r as [a|?]; [destruct a|]|]. left. by exists r.
    + exists e1. eexists. split; [done|]. right. by exists err.
  - destruct (answer e (fs_writeFile path content)) as [r e1].
    exists e1. exists [writeFile_obs path content r].
    split; [by destruct r as [a|?]; [destruct a|]|]. by exists r.
Qed.

Lemma exec_syncWrites (changed : list (string * string)) :
  forall s e,
    exists e' blocks,
      exec answer (syncWrites changed) s e = (s, e', concat blocks, inl tt) /\
      Forall2 (fun entry block => attempted entry.1 entry.2 block) changed blocks.
Proof.
  induction changed as [|[path content] rest IH]; intros s e.
  - exists e, []. split; [done|constructor].
  - cbn [syncWrites]. rewrite exec_bind.
    destruct (exec_syncWrite path content s e) as (e1 & block & -> & Hatt).
    destruct (IH s e1) as (e2 & blocks & -> & Hatts).
    exists e2, (block :: blocks). split; [done|]. by constructor.
Qed.

(** No call of an attempt is a removal. *)
Lemma attempted_notRemoval (path content : string) (block : list (Obs FileSystemTree)) :
  attempted path content block -> Forall notRemoval block.
Proof.
  unfold attempted. cbn zeta. destruct (Nat.ltb _ _).
  - intros [(r & ->)|(err & ->)];
      repeat (apply Forall_cons; split; [by intros ? ?|]); apply Forall_nil_2.
  - intros (r & ->). apply Forall_cons. split; [by intros ? ?|apply Forall_nil_2].
Qed.

(** C7.  One batch of [sync], against any sandbox.  The calls made are
    the removals of all the deleted paths, in order and whatever each one
    answered, followed by one attempt for every changed entry, in order
    and whatever the attempts before it answered: the creation of the
    entry's directory and then its write, the write being skipped only
    when that creation was rejected.  None of these later calls is a
    removal; the function returns normally; and the last-synced snapshot
    ends up being the current map. *)
Theorem sync_batch_discipline
    (deleted : list string) (changed files : FileMap) (s : Component) (e : E) :
  exists s' e' rs blocks,
    exec answer (sync deleted changed files) s e
    = (s', e', (rs ++ concat blocks)%list, inl tt) /\
    Forall2 (fun path o => exists r, o = rm_obs path r) deleted rs /\
    Forall2 (fun entry block => attempted entry.1 entry.2 block)
            (Object_entries changed) blocks /\
    Forall notRemoval (concat blocks) /\
    (forall path content, changed !! path = Some content ->
       exists block, block ∈ blocks /\ attempted path content block) /\
    prevFilesRef s' = files /\
    s' = set_prevFilesRef files s.
Proof.
  unfold sync. rewrite exec_bind.
  destruct (exec_syncDeletions deleted s e) as (e1 & rs & -> & Hrs).
  rewrite exec_bind.
  destruct (exec_syncWrites (Object_entries changed) s e1) as (e2 & blocks & -> & Hatt).
  rewrite exec_modify.
  exists (set_prevFilesRef files s), e2, rs, blocks.
  rewrite app_nil_r. split; [done|]. split; [done|]. split; [done|]. split; [|split].
  - apply Forall_concat. eapply Forall2_Forall_r; [exact Hatt|].
    apply Forall_forall. intros [path content] _ block. apply attempted_notRemoval.
  - intros path content Hlook.
    assert (Hin : (path, content) ∈ Object_entries changed)
      by (by apply elem_of_map_to_list).
    apply list_elem_of_lookup in Hin as (i & Hi).
    destruct (Forall2_lookup_l _ _ _ _ _ Hatt Hi) as (block & Hblock & Hb).
    exists block. split; [by eapply list_elem_of_lookup_2|done].
  - split; [by destruct s|done].
Qed.

(** *** One bring-up attempt against a sandbox *)

(** Case analysis on how the sandbox settles each call of an attempt. *)
Ltac sandbox_answers H :=
  repeat match type of H with
         | context [answer ?e ?c] =>
             let r := fresh "r" in
             let e' := fresh "e" in
             destruct (answer e c) as [r e']; destruct r;
             cbn -[pretty scanForErrors] in H
         | context [if ?b then _ else _] =>
             destruct b eqn:?; cbn -[pretty scanForErrors] in H
         end.

Ltac run_attempt H :=
  unfold attempt, bringUp, bringUpFailed, when in H;
  cbn -[pretty scanForErrors] in H;
  sandbox_answers H.

(** Use a membership in an explicit trace. *)
Ltac obs_in H tac :=
  first [ apply elem_of_nil in H; contradiction
        | apply elem_of_cons in H as [H|H]; [simplify_eq; tac | obs_in H tac] ].

Ltac find_obs :=
  first [ apply list_elem_of_here | apply list_elem_of_further; find_obs ].

Ltac exit_codes :=
  repeat match goal with
         | H : negb _ = false |- _ => apply negb_false_iff in H
         | H : negb _ = true |- _ => apply negb_true_iff in H
         | H : Z.eqb _ _ = true |- _ => apply Z.eqb_eq in H
         | H : Z.eqb _ _ = false |- _ => apply Z.eqb_neq in H
         end.

Ltac solve_failed :=
  unfold failedWith;
  try match goal with
      | |- context [scanForErrors ?cb ?t ?x] =>
          let H := fresh in
          pose proof (scanForErrors_setupCells cb t x) as H;
          destruct (scanForErrors cb t x); unfold setupCells in H; cbn in H;
          simplify_eq
      end;
  cbn; exit_codes; try congruence; try done; repeat split; try congruence; try done.

(** With the flag clear and eligible props, the setup effect starts an
    attempt: the flag is set and the first call, the probe for the
    manifest, is issued. *)
Lemma setupContainer_starts (v : Variant) (p : Props) (s : Component) :
  setupStartedRef s = false -> eligible p = true ->
  exists s' k,
    run (setupContainer transformFlatMapToWebContainer v p) s
    = (s', Suspended (fs_readFile "/package.json") k) /\
    setupStartedRef s' = true.
Proof.
  intros Hflag Hel. unfold eligible in Hel.
  apply andb_true_iff in Hel as [[[Hi Hc]%andb_true_iff Hu]%andb_true_iff Hm].
  apply negb_true_iff in Hc, Hu, Hm.
  unfold setupContainer. cbn [run]. rewrite Hi, Hc, Hflag, Hu, Hm.
  destruct s, v; cbn; eauto.
Qed.

(** C8.  One attempt against any sandbox returns normally.  If the
    mount, a spawn or an awaited exit rejects, the attempt ends failed
    with the message of the thrown value; if an awaited exit code is not
    zero, it ends failed with the message built for the install (when no
    build was spawned) or for the build.  Failed means: the message is
    the setup error and the flag is clear; and from there a run of the
    effect with eligible props starts a fresh attempt at the manifest
    probe. *)
Theorem bringup_failure_is_caught (v : Variant) (p : Props) (s : Component) (e : E) :
  let r := exec answer (attempt transformFlatMapToWebContainer v p) s e in
  outcome r = inl tt /\
  (forall tree err, mount_obs tree (Rejected err) ∈ trace r ->
     failedWith s (finalState r) (errorMessageOf err)) /\
  (forall cmd args err, spawn_obs cmd args (Rejected err) ∈ trace r ->
     failedWith s (finalState r) (errorMessageOf err)) /\
  (forall proc err, exit_obs proc (Rejected err) ∈ trace r ->
     failedWith s (finalState r) (errorMessageOf err)) /\
  (forall proc code, exit_obs proc (Resolved code) ∈ trace r -> code <> 0%Z ->
     ((forall r', spawn_obs "pnpm" ["run"; "build"] r' ∉ trace r) /\
      failedWith s (finalState r)
        ("Failed to install dependencies. Exit code: " ++ pretty code)) \/
     ((exists r', spawn_obs "pnpm" ["run"; "build"] r' ∈ trace r) /\
      failedWith s (finalState r) ("Build failed with exit code: " ++ pretty code))) /\
  (forall msg, failedWith s (finalState r) msg ->
     forall p', eligible p' = true ->
       exists s' k,
         run (setupContainer transformFlatMapToWebContainer v p') (finalState r)
         = (s', Suspended (fs_readFile "/package.json") k) /\
         setupStartedRef s' = true).
Proof.
  intros r.
  assert (Hmain :
    outcome r = inl tt /\
    (forall tree err, mount_obs tree (Rejected err) ∈ trace r ->
       failedWith s (finalState r) (errorMessageOf err)) /\
    (forall cmd args err, spawn_obs cmd args (Rejected err) ∈ trace r ->
       failedWith s (finalState r) (errorMessageOf err)) /\
    (forall proc err, exit_obs proc (Rejected err) ∈ trace r ->
       failedWith s (finalState r) (errorMessageOf err)) /\
    (forall proc code, exit_obs proc (Resolved code) ∈ trace r -> code <> 0%Z ->
       ((forall r', spawn_obs "pnpm" ["run"; "build"] r' ∉ trace r) /\
        failedWith s (finalState r)
          ("Failed to install dependencies. Exit code: " ++ pretty code)) \/
       ((exists r', spawn_obs "pnpm" ["run"; "build"] r' ∈ trace r) /\
        failedWith s (finalState r) ("Build failed with exit code: " ++ pretty code)))).
  { assert (Hexec : exec answer (attempt transformFlatMapToWebContainer v p) s e = r)
      by done.
    clearbody r. destruct s, p, v; run_attempt Hexec; subst r;
      cbn [outcome trace finalState fst snd].
    all: split; [reflexivity|].
    all: split; [intros ? ? Hin; obs_in Hin solve_failed|].
    all: split; [intros ? ? ? Hin; obs_in Hin solve_failed|].
    all: split; [intros ? ? Hin; obs_in Hin solve_failed|].
    all: intros ? ? Hin Hcode; exit_codes.
    all: obs_in Hin ltac:(
           try congruence;
           first [ left; split; [intros ? Hb; obs_in Hb fail | solve_failed]
                 | right; split; [eexists; find_obs | solve_failed] ]). }
  destruct Hmain as (H1 & H2 & H3 & H4 & H5).
  repeat (split; [assumption|]).
  intros msg (_ & Hflag & _) p' Hel. by apply setupContainer_starts.
Qed.

(** C5.  In one attempt against any sandbox the manifest probe is
    always made.  If it succeeds, [mount] is not called; if it fails,
    [mount] is called with the transformed file map.  If the listing of
    the root succeeds and has a directory entry [node_modules], the
    install command is not spawned; if the listing is made and either
    fails or has no such entry, the install command is spawned. *)
Theorem skip_on_existing_artifact (v : Variant) (p : Props) (s : Component) (e : E) :
  let r := exec answer (attempt transformFlatMapToWebContainer v p) s e in
  (exists r0, readFile_obs "/package.json" r0 ∈ trace r) /\
  (forall content, readFile_obs "/package.json" (Resolved content) ∈ trace r ->
     forall tree r0, mount_obs tree r0 ∉ trace r) /\
  (forall err, readFile_obs "/package.json" (Rejected err) ∈ trace r ->
     exists r0, mount_obs (transformFlatMapToWebContainer (files p)) r0 ∈ trace r) /\
  (forall entries, readdir_obs "/" (Resolved entries) ∈ trace r ->
     hasNodeModules entries = true ->
     forall r0, spawn_obs "pnpm" ["install"; "--prefer-offline"] r0 ∉ trace r) /\
  (forall r0, readdir_obs "/" r0 ∈ trace r ->
     (forall entries, r0 = Resolved entries -> hasNodeModules entries = false) ->
     exists r1, spawn_obs "pnpm" ["install"; "--prefer-offline"] r1 ∈ trace r).
Proof.
  intros r.
  assert (Hexec : exec answer (attempt transformFlatMapToWebContainer v p) s e = r)
    by done.
  clearbody r. destruct s, p, v; run_attempt Hexec; subst r;
    cbn [outcome trace finalState fst snd files].
  all: split; [eexists; find_obs|].
  all: split; [intros ? Hin; obs_in Hin ltac:(intros ? ? Hm; obs_in Hm fail)|].
  all: split; [intros ? Hin; obs_in Hin ltac:(eexists; find_obs)|].
  all: exit_codes.
  all: split; [intros ? Hin; obs_in Hin
                 ltac:(intros Hnm ? Hsp; first [congruence | obs_in Hsp fail])|].
  all: intros ? Hin; obs_in Hin
         ltac:(intros Hnone;
               first [ eexists; find_obs
                     | specialize (Hnone _ eq_refl); congruence ]).
  all: intros ? Hin; obs_in Hin
         ltac:(intros Hnone;
               first [ eexists; find_obs
                     | specialize (Hnone _ eq_refl); congruence ]).
Qed.

End Execution.

(** *** At most one attempt in flight *)

Section Scheduling.

Context {FileSystemTree : Type}.
Context (transformFlatMapToWebContainer : FileMap -> FileSystemTree).

Lemma run_flagHeld (m : Async FileSystemTree unit) :
  forall s, flagHeld m s ->
    match run m s with
    | (s', Suspended c k) => setupStartedRef s' = true /\ taskHeld (mkTask c k)
    | _ => True
    end.
Proof.
  induction m as [a|err|k IH|s' k IH|c k IH]; intros s Hheld;
    cbn [run flagHeld] in *.
  - exact I.
  - exact I.
  - by apply IH.
  - by apply IH.
  - destruct Hheld as [Hflag Hk]. split; [done|]. exact Hk.
Qed.

Ltac held :=
  repeat first
    [ progress cbn -[pretty scanForErrors]
    | match goal with
      | |- True => exact I
      | |- _ /\ _ => split; [reflexivity|]
      | |- forall (r : Result _) (s' : Component), _ =>
          let H := fresh in intros [?|?] [] H; cbn in H; subst
      | |- context [if ?b then _ else _] => destruct b
      end ].

Lemma setupContainer_flagHeld (v : Variant) (p : Props) (s : Component) :
  flagHeld (setupContainer transformFlatMapToWebContainer v p) s.
Proof.
  unfold setupContainer, attempt, bringUp, bringUpFailed, when.
  destruct s, p, v; held.
Qed.

(** With the flag set the effect returns at its first guard. *)
Lemma setupContainer_reentrant (v : Variant) (p : Props) (s : Component) :
  setupStartedRef s = true ->
  run (setupContainer transformFlatMapToWebContainer v p) s = (s, Finished tt).
Proof.
  intros Hflag. unfold setupContainer. cbn [run]. by rewrite Hflag, orb_true_r.
Qed.

Lemma park_oneAttempt (w : World FileSystemTree) (m : Async FileSystemTree unit) :
  flagHeld m (component w) ->
  oneAttempt (park w [] (run m (component w))).
Proof.
  intros Hheld. pose proof (run_flagHeld m _ Hheld) as Hrun.
  destruct (run m (component w)) as [s' [a|err|c k]]; cbn.
  - split; [cbn; lia|]. intros t Hin. by apply elem_of_nil in Hin.
  - split; [cbn; lia|]. intros t Hin. by apply elem_of_nil in Hin.
  - destruct Hrun as [Hflag Htask]. split; [cbn; lia|].
    intros t Hin. cbn in Hin. apply list_elem_of_singleton in Hin as ->. done.
Qed.

Lemma step_oneAttempt (v : Variant) (w : World FileSystemTree) (ev : Event FileSystemTree) :
  oneAttempt w -> oneAttempt (step transformFlatMapToWebContainer v w ev).
Proof.
  intros [Hlen Hheld]. destruct ev as [p|i answer|proc chunk|ms]; cbn [step].
  - assert (Hcase : inFlight w = [] \/ setupStartedRef (component w) = true).
    { destruct (inFlight w) as [|t rest] eqn:Hfl; [by left|right].
      apply (Hheld t). try rewrite Hfl. apply list_elem_of_here. }
    destruct Hcase as [Hnil|Hflag].
    + rewrite Hnil. apply park_oneAttempt, setupContainer_flagHeld.
    + rewrite setupContainer_reentrant by done. cbn [park].
      split; cbn [inFlight component]; [exact Hlen|exact Hheld].
  - destruct (inFlight w !! i) as [t|] eqn:Hi; [|done].
    assert (Hfl : inFlight w = [t] /\ i = 0).
    { destruct (inFlight w) as [|t0 [|t1 rest]]; [done| |cbn in Hlen; lia].
      destruct i; [by injection Hi as ->|done]. }
    destruct Hfl as [Hfl ->]. rewrite Hfl. cbn [delete list_delete].
    destruct (Hheld t) as [Hflag Htask]; [try rewrite Hfl; apply list_elem_of_here|].
    apply park_oneAttempt. by apply Htask.
  - split; [done|]. cbn [inFlight component]. intros t Hin.
    destruct (Hheld t Hin) as [Hflag Htask]. split; [|done].
    pose proof (deliver_setupCells v proc chunk (component w)) as Hc.
    unfold setupCells in Hc. congruence.
  - split; [done|]. cbn [inFlight component]. intros t Hin.
    destruct (Hheld t Hin) as [Hflag Htask]. split; [|done].
    pose proof (elapse_setupCells ms (component w)) as Hc.
    unfold setupCells in Hc. congruence.
Qed.

Lemma reachable_oneAttempt (v : Variant) (events : list (Event FileSystemTree)) :
  forall w, oneAttempt w ->
    oneAttempt (fold_left (step transformFlatMapToWebContainer v) events w).
Proof.
  induction events as [|ev rest IH]; intros w Hw; [done|].
  cbn [fold_left]. by apply IH, step_oneAttempt.
Qed.

(** C1.  After any sequence of events (runs of the setup effect with any
    props, promises settling in any way, process output, time passing)
    at most one bring-up attempt is in flight, and while one is in flight
    the flag is set; a run of the effect at that point changes nothing:
    it issues no call and starts no attempt.  The flag is set before the
    first suspension point: whenever a run of the effect suspends, the
    flag is already set. *)
Theorem at_most_one_bringup_in_flight
    (v : Variant) (files0 : FileMap) (events : list (Event FileSystemTree)) :
  let w := fold_left (step transformFlatMapToWebContainer v) events (mountWorld files0) in
  length (inFlight w) <= 1 /\
  (inFlight w <> [] -> setupStartedRef (component w) = true) /\
  (forall p, inFlight w <> [] ->
     step transformFlatMapToWebContainer v w (effectRuns p) = w) /\
  (forall p s s' c k,
     run (setupContainer transformFlatMapToWebContainer v p) s = (s', Suspended c k) ->
     setupStartedRef s' = true).
Proof.
  intros w.
  assert (Hinv : oneAttempt w).
  { apply reachable_oneAttempt. split; [cbn; lia|].
    intros t Hin. by apply elem_of_nil in Hin. }
  destruct Hinv as [Hlen Hheld].
  assert (Hflag : inFlight w <> [] -> setupStartedRef (component w) = true).
  { destruct (inFlight w) as [|t rest] eqn:Hfl; [done|]. intros _.
    apply (Hheld t). apply list_elem_of_here. }
  split; [done|]. split; [done|]. split.
  - intros p Hne. cbn [step]. rewrite setupContainer_reentrant by auto.
    by destruct w.
  - intros p s s' c k Hrun.
    pose proof (run_flagHeld _ s (setupContainer_flagHeld v p s)) as Hs.
    rewrite Hrun in Hs. by destruct Hs.
Qed.

End Scheduling.

End PreviewFacts.

(** ** More on the Reconciled File Map *)

Module BuilderViewMore.
Import BuilderView BuilderViewFacts.

(** A concrete path that no member of [Object.prototype] bears. *)
Ltac not_inherited := refine (bool_decide_unpack _ _); vm_compute; exact I.

Lemma same_ref_refl {A : Type} (x : option (Obj A)) : same_ref x x = true.
Proof. destruct x; [apply Nat.eqb_refl|done]. Qed.

(** An effect run that finds nothing new in any slot keeps the map object
    and the three cells. *)
Lemma sync_nothing_new (sl : Slots) (w : View) :
  same_ref (lastReceivedFile sl) (prevLastReceivedFileRef w) = true ->
  same_ref (lastDeletedPath sl) (prevLastDeletedPathRef w) = true ->
  same_ref (lastRenamedFile sl) (prevLastRenamedFileRef w) = true ->
  filesMap (syncFilesMap sl w) = filesMap w /\
  prevLastReceivedFileRef (syncFilesMap sl w) = prevLastReceivedFileRef w /\
  prevLastDeletedPathRef (syncFilesMap sl w) = prevLastDeletedPathRef w /\
  prevLastRenamedFileRef (syncFilesMap sl w) = prevLastRenamedFileRef w.
Proof.
  destruct sl as [r d n], w as [fm pr pd pn nx]. unfold syncFilesMap.
  cbn [lastReceivedFile lastDeletedPath lastRenamedFile prevLastReceivedFileRef
       prevLastDeletedPathRef prevLastRenamedFileRef filesMap nextRef].
  intros -> -> ->. by destruct r, d, n.
Qed.

(** X1.  Running the sync effect again with the same three slots changes
    nothing: the map object and the three cells stay, so the effects that
    depend on [filesMap] are not run again. *)
Theorem redelivered_slots_are_skipped (sl : Slots) (v : View) :
  let v1 := syncFilesMap sl v in
  let v2 := syncFilesMap sl v1 in
  filesMap v2 = filesMap v1 /\
  prevLastReceivedFileRef v2 = prevLastReceivedFileRef v1 /\
  prevLastDeletedPathRef v2 = prevLastDeletedPathRef v1 /\
  prevLastRenamedFileRef v2 = prevLastRenamedFileRef v1 /\
  triggersSync v1 v2 = false.
Proof.
  cbn zeta.
  assert (Hrefs :
    syncFilesMap sl v = v \/
    (same_ref (lastReceivedFile sl) (prevLastReceivedFileRef (syncFilesMap sl v)) = true /\
     same_ref (lastDeletedPath sl) (prevLastDeletedPathRef (syncFilesMap sl v)) = true /\
     same_ref (lastRenamedFile sl) (prevLastRenamedFileRef (syncFilesMap sl v)) = true)).
  { destruct sl as [r d n], v as [fm pr pd pn nx]. unfold syncFilesMap.
    cbn [lastReceivedFile lastDeletedPath lastRenamedFile prevLastReceivedFileRef
         prevLastDeletedPathRef prevLastRenamedFileRef filesMap nextRef].
    destruct r as [r|], d as [d|], n as [n|]; [right|right|right|right|right|right|right|by left].
    all: destruct (same_ref _ pr) eqn:Hr; destruct (same_ref _ pd) eqn:Hd;
      destruct (same_ref _ pn) eqn:Hn; cbn [negb].
    all: try destruct (renameBranch _ _ _) as [m h].
    all: cbn [prevLastReceivedFileRef prevLastDeletedPathRef prevLastRenamedFileRef].
    all: rewrite ?same_ref_refl; done. }
  assert (Hsame : forall w, filesMap w = filesMap w -> triggersSync w w = false).
  { intros w _. unfold triggersSync. by rewrite Nat.eqb_refl. }
  destruct Hrefs as [Hid|(Hr & Hd & Hn)].
  - rewrite !Hid. unfold triggersSync. by rewrite Nat.eqb_refl.
  - destruct (sync_nothing_new sl (syncFilesMap sl v) Hr Hd Hn) as (H1 & H2 & H3 & H4).
    unfold triggersSync. rewrite H1, Nat.eqb_refl. done.
Qed.

Ltac open_sync :=
  unfold syncFilesMap;
  cbn [lastReceivedFile lastDeletedPath lastRenamedFile prevLastReceivedFileRef
       prevLastDeletedPathRef prevLastRenamedFileRef filesMap nextRef value ref].

(** X2.  An update event alone in a run stores the content under its
    path, an empty content included, leaves every other key alone and
    hands out a new map object.  (Paths that name a member of
    [Object.prototype] are left out: there an assignment is not an
    insertion.) *)
Theorem update_event_is_upsert (sl : Slots) (v : View) (f : Obj ReceivedFile) :
  r_path (value f) ∉ Object_prototype ->
  lastReceivedFile sl = Some f ->
  same_ref (Some f) (prevLastReceivedFileRef v) = false ->
  same_ref (lastDeletedPath sl) (prevLastDeletedPathRef v) = true ->
  same_ref (lastRenamedFile sl) (prevLastRenamedFileRef v) = true ->
  let v' := syncFilesMap sl v in
  value (filesMap v') !! r_path (value f) = Some (r_content (value f)) /\
  (forall k, k <> r_path (value f) ->
     value (filesMap v') !! k = value (filesMap v) !! k) /\
  ref (filesMap v') = nextRef v /\
  prevLastReceivedFileRef v' = Some f.
Proof.
  destruct sl as [r d n], v as [fm pr pd pn nx]. cbn [lastReceivedFile
    lastDeletedPath lastRenamedFile prevLastReceivedFileRef prevLastDeletedPathRef
    prevLastRenamedFileRef filesMap nextRef].
  intros _ -> Hr Hd Hn. cbn zeta. open_sync. rewrite Hr, Hd, Hn. cbn [negb].
  destruct d, n; cbn [filesMap value ref prevLastReceivedFileRef].
  all: rewrite lookup_insert_eq; repeat split; try done.
  all: intros k Hk; by rewrite lookup_insert_ne.
Qed.

Lemma update_event_is_upsert_witness :
  let f := mkObj 7 (mkReceived "src/empty.css" "") in
  let sl := mkSlots (Some f) None None in
  (r_path (value f) ∉ Object_prototype) /\
  lastReceivedFile sl = Some f /\
  same_ref (Some f) (prevLastReceivedFileRef initialView) = false /\
  same_ref (lastDeletedPath sl) (prevLastDeletedPathRef initialView) = true /\
  same_ref (lastRenamedFile sl) (prevLastRenamedFileRef initialView) = true /\
  value (filesMap (syncFilesMap sl initialView)) !! "src/empty.css" = Some "".
Proof.
  cbn zeta. split; [not_inherited|]. repeat (split; [reflexivity|]).
  apply (update_event_is_upsert
           (mkSlots (Some (mkObj 7 (mkReceived "src/empty.css" ""))) None None)
           initialView (mkObj 7 (mkReceived "src/empty.css" "")));
    first [reflexivity | not_inherited].
Defined.

(** X3.  A delete event alone in a run always hands out a new map
    object, so the dependent effects run, even when the path was not in
    the map and the content is the same as before. *)
Theorem delete_event_always_replaces_the_map (sl : Slots) (v : View) (d : Obj DeletedPath) :
  lastDeletedPath sl = Some d ->
  same_ref (Some d) (prevLastDeletedPathRef v) = false ->
  same_ref (lastReceivedFile sl) (prevLastReceivedFileRef v) = true ->
  same_ref (lastRenamedFile sl) (prevLastRenamedFileRef v) = true ->
  freshRefs v ->
  let v' := syncFilesMap sl v in
  value (filesMap v') = delete (d_path (value d)) (value (filesMap v)) /\
  (value (filesMap v) !! d_path (value d) = None ->
     value (filesMap v') = value (filesMap v)) /\
  triggersSync v v' = true.
Proof.
  destruct sl as [r dl n], v as [fm pr pd pn nx]. unfold freshRefs. cbn [lastReceivedFile
    lastDeletedPath lastRenamedFile prevLastReceivedFileRef prevLastDeletedPathRef
    prevLastRenamedFileRef filesMap nextRef].
  intros -> Hd Hr Hn Hfresh. cbn zeta. unfold triggersSync. open_sync.
  rewrite Hr, Hd, Hn. cbn [negb].
  assert (Hne : Nat.eqb (ref fm) nx = false) by (apply Nat.eqb_neq; lia).
  destruct r, n; cbn [filesMap value ref]; rewrite Hne.
  all: split; [done|]; split; [|done].
  all: intros Habs; by apply delete_id.
Qed.

Lemma delete_event_always_replaces_the_map_witness :
  let d := mkObj 7 (mkDeleted "gone.txt") in
  let sl := mkSlots None (Some d) None in
  lastDeletedPath sl = Some d /\
  same_ref (Some d) (prevLastDeletedPathRef initialView) = false /\
  same_ref (lastReceivedFile sl) (prevLastReceivedFileRef initialView) = true /\
  same_ref (lastRenamedFile sl) (prevLastRenamedFileRef initialView) = true /\
  freshRefs initialView /\
  value (filesMap (syncFilesMap sl initialView)) = value (filesMap initialView) /\
  triggersSync initialView (syncFilesMap sl initialView) = true.
Proof.
  cbn zeta. repeat (split; [reflexivity|]). split; [unfold freshRefs; cbn; lia|].
  destruct (delete_event_always_replaces_the_map
              (mkSlots None (Some (mkObj 7 (mkDeleted "gone.txt"))) None)
              initialView (mkObj 7 (mkDeleted "gone.txt")))
    as (_ & Hsame & Htrig); try reflexivity.
  - unfold freshRefs; cbn; lia.
  - split; [apply Hsame; reflexivity|exact Htrig].
Defined.

(** X4.  A rename event alone in a run whose old path holds a non-empty
    content moves that content: the old path is gone, the new path holds
    the content when it differs from the old one, and a rename of a path
    to itself deletes the entry.  No other key changes. *)
Theorem rename_event_moves_value (sl : Slots) (v : View) (r : Obj RenamedFile) (c : string) :
  newPath (value r) ∉ Object_prototype ->
  lastRenamedFile sl = Some r ->
  same_ref (Some r) (prevLastRenamedFileRef v) = false ->
  same_ref (lastReceivedFile sl) (prevLastReceivedFileRef v) = true ->
  same_ref (lastDeletedPath sl) (prevLastDeletedPathRef v) = true ->
  value (filesMap v) !! oldPath (value r) = Some c -> c <> "" ->
  let v' := syncFilesMap sl v in
  value (filesMap v') !! oldPath (value r) = None /\
  (newPath (value r) <> oldPath (value r) ->
     value (filesMap v') !! newPath (value r) = Some c) /\
  (forall k, k <> oldPath (value r) -> k <> newPath (value r) ->
     value (filesMap v') !! k = value (filesMap v) !! k).
Proof.
  destruct sl as [rc dl n], v as [fm pr pd pn nx]. cbn [lastReceivedFile
    lastDeletedPath lastRenamedFile prevLastReceivedFileRef prevLastDeletedPathRef
    prevLastRenamedFileRef filesMap nextRef].
  intros _ -> Hn Hr Hd Hc Hne. cbn zeta. open_sync.
  rewrite Hr, Hd, Hn. cbn [negb].
  rewrite (renameBranch_moves (value r) (value fm) false c Hc Hne).
  destruct rc, dl; cbn [filesMap value].
  all: split; [apply lookup_delete_eq|].
  all: split; [intros Hdiff; by rewrite lookup_delete_ne, lookup_insert_eq|].
  all: intros k Hk1 Hk2; by rewrite lookup_delete_ne, lookup_insert_ne.
Qed.

Lemma rename_event_moves_value_witness :
  let r := mkObj 7 (mkRenamed "a.txt" "a.txt") in
  let sl := mkSlots None None (Some r) in
  let v := mkView (mkObj 0 {[ "a.txt" := "hello" ]}) None None None 1 in
  (newPath (value r) ∉ Object_prototype) /\
  lastRenamedFile sl = Some r /\
  same_ref (Some r) (prevLastRenamedFileRef v) = false /\
  same_ref (lastReceivedFile sl) (prevLastReceivedFileRef v) = true /\
  same_ref (lastDeletedPath sl) (prevLastDeletedPathRef v) = true /\
  value (filesMap v) !! "a.txt" = Some "hello" /\ "hello" <> "" /\
  value (filesMap (syncFilesMap sl v)) !! "a.txt" = None.
Proof.
  cbn zeta. split; [not_inherited|].
  repeat (split; [reflexivity|]). split; [discriminate|].
  apply (rename_event_moves_value
           (mkSlots None None (Some (mkObj 7 (mkRenamed "a.txt" "a.txt"))))
           (mkView (mkObj 0 {[ "a.txt" := "hello" ]}) None None None 1)
           (mkObj 7 (mkRenamed "a.txt" "a.txt")) "hello");
    first [reflexivity | discriminate | not_inherited].
Defined.

(** X5.  When one run of the effect sees a new update and a new delete
    for the same path, the deletion is applied last: the path is absent
    afterwards, whichever event was the more recent. *)
Theorem delete_wins_over_update_in_one_run
    (sl : Slots) (v : View) (f : Obj ReceivedFile) (d : Obj DeletedPath) :
  lastReceivedFile sl = Some f -> lastDeletedPath sl = Some d ->
  same_ref (Some f) (prevLastReceivedFileRef v) = false ->
  same_ref (Some d) (prevLastDeletedPathRef v) = false ->
  same_ref (lastRenamedFile sl) (prevLastRenamedFileRef v) = true ->
  d_path (value d) = r_path (value f) ->
  value (filesMap (syncFilesMap sl v)) !! r_path (value f) = None.
Proof.
  destruct sl as [rc dl n], v as [fm pr pd pn nx]. cbn [lastReceivedFile
    lastDeletedPath lastRenamedFile prevLastReceivedFileRef prevLastDeletedPathRef
    prevLastRenamedFileRef filesMap nextRef].
  intros -> -> Hr Hd Hn Hpath. open_sync. rewrite Hr, Hd, Hn. cbn [negb].
  destruct n; cbn [filesMap value]; rewrite Hpath; apply lookup_delete_eq.
Qed.

Lemma delete_wins_over_update_in_one_run_witness :
  let f := mkObj 7 (mkReceived "a.txt" "new content") in
  let d := mkObj 8 (mkDeleted "a.txt") in
  let sl := mkSlots (Some f) (Some d) None in
  lastReceivedFile sl = Some f /\ lastDeletedPath sl = Some d /\
  same_ref (Some f) (prevLastReceivedFileRef initialView) = false /\
  same_ref (Some d) (prevLastDeletedPathRef initialView) = false /\
  same_ref (lastRenamedFile sl) (prevLastRenamedFileRef initialView) = true /\
  d_path (value d) = r_path (value f) /\
  value (filesMap (syncFilesMap sl initialView)) !! "a.txt" = None.
Proof.
  cbn zeta. repeat (split; [reflexivity|]).
  apply (delete_wins_over_update_in_one_run
           (mkSlots (Some (mkObj 7 (mkReceived "a.txt" "new content")))
                    (Some (mkObj 8 (mkDeleted "a.txt"))) None)
           initialView (mkObj 7 (mkReceived "a.txt" "new content"))
           (mkObj 8 (mkDeleted "a.txt"))); reflexivity.
Defined.

(** X6.  The snapshot merge hands out a new map object exactly when the
    tree holds, for some path, a collected content that the map does not
    already hold under that path. *)
Theorem merge_replaces_the_map_iff_content_is_new (fileTree : list FileNode) (v : View) :
  Forall (fun n => path n ∉ Object_prototype) (allNodes fileTree) ->
  freshRefs v ->
  (triggersSync v (mergeFileTree fileTree v) = true <->
   exists k c, traverse fileTree ∅ !! k = Some c /\ value (filesMap v) !! k <> Some c).
Proof.
  unfold freshRefs, triggersSync, mergeFileTree. intros _ Hfresh.
  destruct (Nat.ltb 0 (length fileTree)) eqn:Hlen.
  - cbn [filesMap]. set (newFiles := traverse fileTree ∅).
    assert (Hsame : newFiles ∪ value (filesMap v) = value (filesMap v) <->
                    forall k c, newFiles !! k = Some c -> value (filesMap v) !! k = Some c).
    { split.
      - intros Heq k c Hk. rewrite <- Heq. by apply lookup_union_Some_l.
      - intros Hall. apply map_eq. intros k. rewrite lookup_union.
        destruct (newFiles !! k) as [c|] eqn:Hk.
        + rewrite (Hall k c Hk). done.
        + by destruct (value (filesMap v) !! k). }
    destruct (decide (newFiles ∪ value (filesMap v) = value (filesMap v))) as [Heq|Hneq].
    + rewrite mergeUpdater_same by done. rewrite Nat.eqb_refl. cbn [negb].
      split; [done|]. intros (k & c & Hk & Hne). destruct Hne.
      by apply (proj1 Hsame Heq).
    + assert (Hnew : mergeUpdater newFiles (nextRef v) (filesMap v)
                     = mkObj (nextRef v) (newFiles ∪ value (filesMap v))).
      { unfold mergeUpdater. cbn [value].
        destruct (_ && _) eqn:Hcheck; [|done].
        apply merge_check_spec in Hcheck. done. }
      rewrite Hnew. cbn [ref].
      assert (Hne : Nat.eqb (ref (filesMap v)) (nextRef v) = false)
        by (apply Nat.eqb_neq; lia).
      rewrite Hne. cbn [negb]. split; [|done]. intros _.
      destruct (decide (exists k c, newFiles !! k = Some c
                                    /\ value (filesMap v) !! k <> Some c)) as [?|Hno];
        [done|].
      destruct Hneq. apply Hsame. intros k c Hk.
      destruct (decide (value (filesMap v) !! k = Some c)) as [?|Hd]; [done|].
      destruct Hno. by exists k, c.
  - rewrite Nat.eqb_refl. cbn [negb]. split; [done|].
    intros (k & c & Hk & _). apply Nat.ltb_ge in Hlen.
    destruct fileTree; [|cbn in Hlen; lia]. unfold traverse in Hk. cbn in Hk.
    by rewrite lookup_empty in Hk.
Qed.

Lemma merge_replaces_the_map_iff_content_is_new_witness :
  let fileTree := [mkNode file "a.txt" (Some "x") None] in
  Forall (fun n => path n ∉ Object_prototype) (allNodes fileTree) /\
  freshRefs initialView /\
  (triggersSync initialView (mergeFileTree fileTree initialView) = true <->
   exists k c, traverse fileTree ∅ !! k = Some c
               /\ value (filesMap initialView) !! k <> Some c).
Proof.
  cbn zeta.
  assert (Hpaths : Forall (fun n => path n ∉ Object_prototype)
                     (allNodes [mkNode file "a.txt" (Some "x") None])).
  { apply Forall_cons. split; [cbn [path]; not_inherited|apply Forall_nil_2]. }
  split; [exact Hpaths|]. split; [unfold freshRefs; cbn; lia|].
  apply (merge_replaces_the_map_iff_content_is_new
           [mkNode file "a.txt" (Some "x") None] initialView Hpaths).
  unfold freshRefs; cbn; lia.
Defined.

(** X7.  After an update event for the active file, the pre-fetch effect
    asks for the file again exactly when the content received is empty:
    an empty file is stored, yet it still looks not cached. *)
Theorem prefetch_repeats_for_empty_content
    (v : View) (f : Obj ReceivedFile) (fileTree : list FileNode) :
  0 < length fileTree ->
  r_path (value f) <> "" ->
  r_path (value f) ∉ Object_prototype ->
  same_ref (Some f) (prevLastReceivedFileRef v) = false ->
  let v' := syncFilesMap (mkSlots (Some f) None None) v in
  prefetch "Connected" fileTree (Some (r_path (value f))) v' =
  if truthy_string (r_content (value f)) then None
  else Some (r_path (value f), true).
Proof.
  intros Hlen Hpath _ Hnew. cbn zeta.
  assert (Hval : value (filesMap (syncFilesMap (mkSlots (Some f) None None) v))
                 !! r_path (value f) = Some (r_content (value f))).
  { destruct v as [fm pr pd pn nx]. cbn [prevLastReceivedFileRef] in Hnew. open_sync. rewrite Hnew. cbn [negb].
    destruct pd, pn; cbn [same_ref negb filesMap value]; apply lookup_insert_eq. }
  unfold prefetch, read. rewrite Hval. cbn [truthy_read].
  apply Nat.ltb_lt in Hlen. rewrite Hlen.
  assert (Hp : truthy_string (r_path (value f)) = true).
  { unfold truthy_string. apply negb_true_iff. by apply String.eqb_neq. }
  rewrite Hp. cbn. by destruct (truthy_string (r_content (value f))).
Qed.

Lemma prefetch_repeats_for_empty_content_witness :
  let f := mkObj 7 (mkReceived "src/empty.css" "") in
  let fileTree := [mkNode file "src/empty.css" None None] in
  0 < length fileTree /\ r_path (value f) <> "" /\
  (r_path (value f) ∉ Object_prototype) /\
  same_ref (Some f) (prevLastReceivedFileRef initialView) = false /\
  prefetch "Connected" fileTree (Some "src/empty.css")
    (syncFilesMap (mkSlots (Some f) None None) initialView)
  = Some ("src/empty.css", true).
Proof.
  cbn zeta. split; [cbn; lia|]. split; [discriminate|].
  split; [not_inherited|]. split; [reflexivity|].
  apply (prefetch_repeats_for_empty_content initialView
           (mkObj 7 (mkReceived "src/empty.css" ""))
           [mkNode file "src/empty.css" None None]).
  - cbn; lia.
  - discriminate.
  - not_inherited.
  - reflexivity.
Defined.

End BuilderViewMore.

(** ** More on the output scanner *)

Module PreviewMore.
Import Preview PreviewFacts.

(** *** The bounded buffer *)

(** X8.  Appending a chunk keeps the error buffer within 2000
    characters: what is kept is a suffix of the old buffer followed by
    the chunk, and it is exactly the last 1000 characters once that text
    exceeds 2000.  [scanForErrors] appends every chunk, [processLog] only
    a chunk that matches a failure marker. *)
Theorem error_buffer_is_bounded (text : string) (s : Component) :
  let s' := appendToBuffer text s in
  String.length (errorBuffer s') <= 2000 /\
  (exists dropped, errorBuffer s ++ text = dropped ++ errorBuffer s') /\
  (2000 < String.length (errorBuffer s ++ text) -> String.length (errorBuffer s') = 1000) /\
  (forall cb, errorBuffer (scanForErrors cb text s) = errorBuffer s') /\
  (forall cb, errorBuffer (onError cb text s)
              = if Text.errorRegex text then errorBuffer s' else errorBuffer s).
Proof.
  assert (Hbuf : errorBuffer (appendToBuffer text s) =
            if Nat.ltb 2000 (String.length (errorBuffer s ++ text))
            then Text.slice_last 1000 (errorBuffer s ++ text)
            else errorBuffer s ++ text).
  { unfold appendToBuffer. destruct s. cbn [errorBuffer set_errorBuffer]. by case_match. }
  assert (Hdeb : forall cb s0, errorBuffer (debounceReport cb s0) = errorBuffer s0).
  { intros cb s0. unfold debounceReport.
    by destruct s0 as [? ? ? ? [id|] ? ? ? ? ? ? ? ? ? ?]. }
  assert (Hscan : forall cb, errorBuffer (scanForErrors cb text s)
                             = errorBuffer (appendToBuffer text s)).
  { intros cb. unfold scanForErrors. destruct (_ || _); [apply Hdeb|done]. }
  assert (Herr : forall cb, errorBuffer (onError cb text s)
                 = if Text.errorRegex text then errorBuffer (appendToBuffer text s)
                   else errorBuffer s).
  { intros cb. unfold onError. destruct (Text.errorRegex text); [apply Hdeb|done]. }
  cbn zeta. split; [|split; [|split; [|split; [exact Hscan|exact Herr]]]].
  all: rewrite Hbuf; set (b := errorBuffer s ++ text);
    destruct (Nat.ltb 2000 (String.length b)) eqn:Hlong.
  all: first [apply Nat.ltb_lt in Hlong | apply Nat.ltb_ge in Hlong].
  all: unfold Text.slice_last.
  - rewrite substring_length; lia.
  - lia.
  - destruct (substring_suffix b (String.length b - 1000)) as (d & Hd); [lia|].
    exists d. replace (String.length b - (String.length b - 1000)) with 1000 in Hd by lia.
    exact Hd.
  - by exists "".
  - intros _. apply substring_length. lia.
  - lia.
Qed.


(** *** A marker split over two chunks *)

(** A chunk without a failure marker leaves the reports and the buffer
    of [processLog] alone. *)
Lemma processLog_no_marker (cb : bool) (data : string) (s : Component) :
  Text.errorRegex data = false ->
  reportCells (processLog cb data s) = reportCells s.
Proof.
  intros Hm. unfold processLog. cbn zeta. unfold onError. rewrite Hm.
  by rewrite onReady_cells, onFastRefreshDone_cells, onFastRefreshRebuilding_cells,
    onCompiled_cells, onCompiling_cells.
Qed.

(** X9.  A failure marker split over two chunks, neither of which matches
    by itself, arriving while the buffer is empty and nothing is pending:
    [scanForErrors] (part_002) finds the marker in its buffer and reports
    the two chunks together, once; [processLog] (part_003), which tests
    only the chunk, reports nothing and buffers nothing. *)
Theorem split_marker_is_caught_by_the_buffer_only
    (v : Variant) (files0 : FileMap) (history : list Feed) (cb : bool)
    (c1 c2 : string) (d d' : N) :
  Text.errorRegex c1 = false -> Text.errorRegex c2 = false ->
  Text.errorRegex (c1 ++ c2) = true ->
  String.length c1 + String.length c2 <= 2000 ->
  (1000 <= d')%N ->
  let s := fold_left (feed v) history (mountComponent files0) in
  errorBuffer s = "" -> pendingReports s = [] ->
  let fed := elapse d' (scanner v cb c2 (elapse d (scanner v cb c1 s))) in
  pendingReports fed = [] /\
  match v with
  | part_002 =>
      terminalErrors fed
      = (if cb then (terminalErrors s ++ [(c1 ++ c2)%string])%list else terminalErrors s) /\
      errorBuffer fed = (if cb then "" else c1 ++ c2)
  | part_003 =>
      terminalErrors fed = terminalErrors s /\ errorBuffer fed = ""
  end.
Proof.
  intros H1 H2 H12 Hlen Hd' s Hempty Hnone fed.
  assert (Htidy : tidy s) by apply tidy_feeds, tidy_mount.
  assert (Hquiet : forall ms x, pendingReports x = [] ->
            pendingReports (elapse ms x) = [] /\ errorBuffer (elapse ms x) = errorBuffer x /\
            terminalErrors (elapse ms x) = terminalErrors x).
  { intros ms x Hx. destruct (elapse_quiet ms x) as (Ha & Hb & Hc & _).
    - rewrite Hx. by intros ? [].
    - by rewrite Ha, Hx. }
  destruct v; subst fed; cbn [scanner].
  - assert (Hb1 : errorBuffer (appendToBuffer c1 s) = c1).
    { rewrite errorBuffer_appendToBuffer, Hempty. change ("" ++ c1) with c1.
      destruct (Nat.ltb _ _) eqn:Hlong; [|done]. apply Nat.ltb_lt in Hlong. lia. }
    assert (Hs1 : scanForErrors cb c1 s = appendToBuffer c1 s).
    { unfold scanForErrors. cbn zeta. by rewrite Hb1, H1. }
    rewrite Hs1.
    pose proof (tidy_appendToBuffer c1 s Htidy) as Htidy1.
    destruct (appendToBuffer_cells c1 s) as (Hr1 & Ho1 & _).
    set (s1 := appendToBuffer c1 s) in *.
    destruct (Hquiet d s1) as (Hr2 & Hb2 & Ho2); [by rewrite Hr1|].
    pose proof (tidy_elapse d s1 Htidy1) as Htidy2.
    set (s2 := elapse d s1) in *.
    assert (Hb3 : errorBuffer (appendToBuffer c2 s2) = c1 ++ c2).
    { rewrite errorBuffer_appendToBuffer, Hb2, Hb1.
      destruct (Nat.ltb _ _) eqn:Hlong; [|done].
      apply Nat.ltb_lt in Hlong. rewrite length_append in Hlong. lia. }
    unfold scanForErrors. cbn zeta. rewrite Hb3, H2, H12. cbn [orb].
    destruct (debounceReport_cells cb (appendToBuffer c2 s2)) as (Hr4 & Hb4 & Ho4 & Hc4);
      [by apply tidy_appendToBuffer|].
    destruct (appendToBuffer_cells c2 s2) as (_ & Ho3 & Hc3).
    set (s4 := debounceReport cb (appendToBuffer c2 s2)) in *.
    destruct (elapse_reports d' s4 _ cb Hr4 eq_refl) as (Hr5 & Hb5 & Ho5).
    { cbn [due]. rewrite Hc4. lia. }
    rewrite Hr5, Hb5, Ho5, Hb4, Ho4, Hb3, Ho3, Ho2, Ho1. done.
  - destruct (reportCells_eq _ _ (processLog_no_marker cb c1 s H1)) as (Hr1 & Hb1 & Ho1 & _).
    set (s1 := processLog cb c1 s) in *.
    destruct (Hquiet d s1) as (Hr2 & Hb2 & Ho2); [by rewrite Hr1|].
    set (s2 := elapse d s1) in *.
    destruct (reportCells_eq _ _ (processLog_no_marker cb c2 s2 H2)) as (Hr3 & Hb3 & Ho3 & _).
    set (s3 := processLog cb c2 s2) in *.
    destruct (Hquiet d' s3) as (Hr4 & Hb4 & Ho4); [by rewrite Hr3, Hr2|].
    rewrite Hr4, Hb4, Ho4, Hb3, Ho3, Hb2, Ho2, Hb1, Ho1. done.
Qed.

Lemma split_marker_is_caught_by_the_buffer_only_witness :
  Text.errorRegex "build fai" = false /\ Text.errorRegex "led in 2s" = false /\
  Text.errorRegex ("build fai" ++ "led in 2s") = true /\
  String.length "build fai" + String.length "led in 2s" <= 2000 /\
  (1000 <= 1000)%N /\
  let s := fold_left (feed part_002) [] (mountComponent ∅) in
  errorBuffer s = "" /\ pendingReports s = [] /\
  let fed := elapse 1000 (scanner part_002 true "led in 2s"
               (elapse 5000 (scanner part_002 true "build fai" s))) in
  pendingReports fed = [] /\
  terminalErrors fed = (terminalErrors s ++ [("build fai" ++ "led in 2s")%string])%list /\
  errorBuffer fed = "".
Proof.
  split; [vm_compute; reflexivity|]. split; [vm_compute; reflexivity|].
  split; [vm_compute; reflexivity|]. split; [vm_compute; lia|]. split; [lia|].
  cbn zeta. split; [reflexivity|]. split; [reflexivity|].
  apply (split_marker_is_caught_by_the_buffer_only part_002 ∅ [] true
           "build fai" "led in 2s" 5000%N 1000%N).
  - vm_compute; reflexivity.
  - vm_compute; reflexivity.
  - vm_compute; reflexivity.
  - vm_compute; lia.
  - lia.
  - reflexivity.
  - reflexivity.
Defined.

(** *** The timer table over any history *)

(** X10.  Whatever output and silence the scanner has seen, at most one
    error report is pending; it is the timer that [errorTimeout] names,
    and the buffer it will report is not empty. *)
Theorem at_most_one_pending_error_report
    (v : Variant) (files0 : FileMap) (evs : list Feed) :
  let s := fold_left (feed v) evs (mountComponent files0) in
  length (pendingReports s) <= 1 /\
  (forall t, In t (pendingReports s) -> errorTimeout s = Some (timerId t)) /\
  (pendingReports s <> [] -> errorBuffer s <> "").
Proof.
  cbn zeta. pose proof (tidy_feeds v evs _ (tidy_mount files0)) as Htidy.
  split; [by apply tidy_one_report|].
  destruct Htidy as (_ & _ & Hrep & Hbuf & _). split; [|done].
  intros t [Hin Ht]%filter_In. by apply Hrep.
Qed.

(** X11.  Whatever output and silence the scanner has seen, the error
    callback has never been given an empty report. *)
Theorem error_callback_never_gets_an_empty_report
    (v : Variant) (files0 : FileMap) (evs : list Feed) :
  ~ In "" (terminalErrors (fold_left (feed v) evs (mountComponent files0))).
Proof.
  pose proof (tidy_feeds v evs _ (tidy_mount files0)) as Htidy.
  by destruct Htidy as (_ & _ & _ & _ & Hout).
Qed.

End PreviewMore.

(** ** More on the bring-up *)

Module PreviewAttempts.
Import Preview PreviewFacts.

Section Attempts.

Context {FileSystemTree : Type}.
Context (transformFlatMapToWebContainer : FileMap -> FileSystemTree).
Context {E : Type} (answer : E -> forall c : Call FileSystemTree, Result (ret c) * E).

(** X14.  A run of the setup effect suspends, that is starts an attempt,
    exactly when the props are eligible and the flag is clear.  With an
    instance, setup not complete, the flag clear and a server URL known,
    it takes the fast path instead: it declares setup complete and the
    step ["ready"] without a call and without setting the flag.  In
    every other case it returns with the state untouched. *)
Theorem setup_effect_start_condition (v : Variant) (p : Props) (s : Component) :
  let r := run (setupContainer transformFlatMapToWebContainer v p) s in
  suspends r = eligible p && negb (setupStartedRef s) /\
  (fastPath p s = true ->
     snd r = Finished tt /\
     setupComplete (fst r) = true /\ currentStep (fst r) = ready /\
     setupStartedRef (fst r) = false /\ setupError (fst r) = setupError s /\
     initialLoadCompleteRef (fst r)
     = match v with part_003 => true | part_002 => initialLoadCompleteRef s end) /\
  (fastPath p s = false -> eligible p && negb (setupStartedRef s) = false ->
     r = (s, Finished tt)).
Proof.
  unfold eligible, fastPath, setupContainer. cbn [run].
  destruct p as [f inst url prod done' cb], s as [flag ? ? ? ? ? ? ? ? ? ? ? ? ? ?].
  cbn [webContainerInstance isSetupComplete serverUrl files setupStartedRef].
  destruct inst, done', flag, (truthy_string url), (manifestMissing f), v;
    cbn; repeat split; intros; congruence.
Qed.

(** Case analysis on how the sandbox settles each call of an attempt. *)
Ltac settle H :=
  repeat match type of H with
         | context [answer ?e ?c] =>
             let r := fresh "r" in
             let e' := fresh "e" in
             destruct (answer e c) as [r e']; destruct r;
             cbn -[pretty scanForErrors] in H
         | context [if ?b then _ else _] =>
             destruct b eqn:?; cbn -[pretty scanForErrors] in H
         end.

Ltac every_attempt H :=
  unfold attempt, bringUp, bringUpFailed, when in H;
  cbn -[pretty scanForErrors] in H;
  settle H.

Ltac among H tac :=
  first [ apply elem_of_nil in H; contradiction
        | apply elem_of_cons in H as [H|H]; [simplify_eq; tac | among H tac] ].

Ltac here_or_later :=
  first [ apply list_elem_of_here | apply list_elem_of_further; here_or_later ].

Ltac earlier :=
  first [ left; split; [reflexivity | here_or_later] | right; earlier ].

Ltac codes :=
  repeat match goal with
         | H : negb _ = false |- _ => apply negb_false_iff in H
         | H : negb _ = true |- _ => apply negb_true_iff in H
         | H : Z.eqb _ _ = true |- _ => apply Z.eqb_eq in H
         | H : Z.eqb _ _ = false |- _ => apply Z.eqb_neq in H
         end.

(** X13.  In the calls of one attempt, against any sandbox: a command is
    spawned only after the manifest probe succeeded or the mount resolved;
    a command other than the install only after the listing showed
    [node_modules] or after the install was spawned and exited with code
    0; the static server only after the build was spawned and exited
    with code 0; the dev server only outside production, the build only
    in production. *)
Theorem server_starts_only_after_its_prerequisites
    (v : Variant) (p : Props) (s : Component) (e : E) :
  let r := exec answer (attempt transformFlatMapToWebContainer v p) s e in
  (forall cmd args r0, spawn_obs cmd args r0 ∈ trace r ->
     (exists content,
        precedes (readFile_obs "/package.json" (Resolved content))
                 (spawn_obs cmd args r0) (trace r)) \/
     (exists tree u,
        precedes (mount_obs tree (Resolved u)) (spawn_obs cmd args r0) (trace r))) /\
  (forall args r0, spawn_obs "pnpm" args r0 ∈ trace r ->
     args <> ["install"; "--prefer-offline"] ->
     (exists entries,
        hasNodeModules entries = true /\
        precedes (readdir_obs "/" (Resolved entries)) (spawn_obs "pnpm" args r0) (trace r)) \/
     (exists proc,
        precedes (spawn_obs "pnpm" ["install"; "--prefer-offline"] (Resolved proc))
                 (exit_obs proc (Resolved 0%Z)) (trace r) /\
        precedes (exit_obs proc (Resolved 0%Z)) (spawn_obs "pnpm" args r0) (trace r))) /\
  (forall r0, spawn_obs "pnpm" ["dlx"; "serve"; "dist"] r0 ∈ trace r ->
     exists proc,
       precedes (spawn_obs "pnpm" ["run"; "build"] (Resolved proc))
                (exit_obs proc (Resolved 0%Z)) (trace r) /\
       precedes (exit_obs proc (Resolved 0%Z))
                (spawn_obs "pnpm" ["dlx"; "serve"; "dist"] r0) (trace r)) /\
  (forall r0, spawn_obs "pnpm" ["run"; "dev"] r0 ∈ trace r -> isProduction p = false) /\
  (forall r0, spawn_obs "pnpm" ["run"; "build"] r0 ∈ trace r -> isProduction p = true).
Proof.
  intros r.
  assert (Hexec : exec answer (attempt transformFlatMapToWebContainer v p) s e = r)
    by done.
  clearbody r. destruct s, p, v; every_attempt Hexec; subst r;
    cbn [outcome trace finalState fst snd isProduction]; codes.
  all: split;
    [intros ? ? ? Hin;
     among Hin ltac:(first [ left; eexists; cbn [precedes]; earlier
                           | right; do 2 eexists; cbn [precedes]; earlier ])|].
  all: split;
    [intros ? ? Hin Hnot;
     among Hin ltac:(first [ congruence
                           | left; eexists; split; [eassumption|cbn [precedes]; earlier]
                           | right; eexists; split; cbn [precedes]; subst; earlier ])|].
  all: split;
    [intros ? Hin;
     among Hin ltac:(eexists; split; cbn [precedes]; subst; earlier)|].
  all: split; intros ? Hin; among Hin ltac:(reflexivity).
Qed.




End Attempts.
End PreviewAttempts.

(** ** More on the file sync *)

Module PreviewSync.
Import Preview PreviewFacts.

Section FileSync.

Context {FileSystemTree : Type}.
Context {E : Type} (answer : E -> forall c : Call FileSystemTree, Result (ret c) * E).



Lemma no_keys (m : FileMap) : Nat.ltb 0 (length (Object_keys m)) = false <-> m = ∅.
Proof.
  rewrite length_Object_keys, Nat.ltb_ge. split.
  - intros Hsize. apply map_size_empty_iff. lia.
  - intros ->. by rewrite map_size_empty.
Qed.

Lemma no_paths (l : list string) : Nat.ltb 0 (length l) = false <-> l = [].
Proof.
  rewrite Nat.ltb_ge. split; [|by intros ->].
  destruct l; [done|cbn; lia].
Qed.

(** One run of [sync]. *)
Lemma exec_sync (deleted : list string) (changed files : FileMap) (s : Component) (e : E) :
  exists e' rs blocks,
    exec answer (sync deleted changed files) s e
    = (set_prevFilesRef files s, e', (rs ++ concat blocks)%list, inl tt) /\
    Forall2 (fun path o => exists r, o = rm_obs path r) deleted rs /\
    Forall2 (fun entry block => attempted entry.1 entry.2 block)
            (Object_entries changed) blocks.
Proof.
  unfold sync. rewrite exec_bind.
  destruct (exec_syncDeletions answer deleted s e) as (e1 & rs & -> & Hrs).
  rewrite exec_bind.
  destruct (exec_syncWrites answer (Object_entries changed) s e1)
    as (e2 & blocks & -> & Hatt).
  rewrite exec_modify. exists e2, rs, blocks. by rewrite app_nil_r.
Qed.

(** X15.  One run of the file-sync effect, against any sandbox, returns
    normally.  Without an instance, before setup is complete, or when
    the diff is empty, it makes no call and leaves the state untouched.
    Otherwise it removes the deleted paths and then attempts every
    changed entry, records the current map as the last-synced snapshot,
    and touches none of the setup cells; part_003 alone shows the step
    ["compiling"], and only when an entry changed. *)
Theorem file_sync_runs_only_on_a_difference
    (v : Variant) (p : Props) (s : Component) (e : E) :
  let r := exec answer (fileSync v p) s e in
  let changed := changedFiles (files p) (prevFilesRef s) in
  let deleted := deletedFiles (files p) (prevFilesRef s) in
  outcome r = inl tt /\
  (webContainerInstance p && isSetupComplete p = false -> r = (s, e, [], inl tt)) /\
  (changed = ∅ -> deleted = [] -> r = (s, e, [], inl tt)) /\
  (webContainerInstance p && isSetupComplete p = true ->
   changed <> ∅ \/ deleted <> [] ->
   prevFilesRef (finalState r) = files p /\
   setupCells (finalState r) = setupCells s /\
   (currentStep (finalState r)
    = match v with
      | part_002 => currentStep s
      | part_003 => if decide (changed = ∅) then currentStep s else compiling
      end) /\
   exists rs blocks,
     trace r = (rs ++ concat blocks)%list /\
     Forall2 (fun path o => exists r0, o = rm_obs path r0) deleted rs /\
     Forall2 (fun entry block => attempted entry.1 entry.2 block)
             (Object_entries changed) blocks).
Proof.
  cbn zeta. unfold fileSync. cbn [exec].
  set (changed := changedFiles (files p) (prevFilesRef s)).
  set (deleted := deletedFiles (files p) (prevFilesRef s)).
  destruct (webContainerInstance p), (isSetupComplete p); cbn [negb orb andb].
  2-4: by repeat split.
  destruct (Nat.ltb 0 (length (Object_keys changed))) eqn:Hc.
  - assert (Hne : changed <> ∅).
    { intros Habs. apply no_keys in Habs. congruence. }
    cbn [orb]. rewrite exec_bind.
    destruct v; unfold when.
    + cbn [exec].
      destruct (exec_sync deleted changed (files p) s e) as (e' & rs & blocks & -> & Hrs & Hb).
      cbn [outcome finalState trace fst snd].
      split; [done|]. split; [done|]. split; [done|].
      intros _ _. split; [by destruct s|]. split; [by destruct s|]. split; [by destruct s|].
      by exists rs, blocks.
    + rewrite exec_bind, !exec_modify.
      destruct (exec_sync deleted changed (files p)
                  (setCompileMessage "Detected file changes. Recompiling..."
                     (setCurrentStep compiling s)) e)
        as (e' & rs & blocks & -> & Hrs & Hb).
      cbn [outcome finalState trace fst snd app].
      split; [done|]. split; [done|]. split; [done|].
      intros _ _. split; [by destruct s|]. split; [by destruct s|].
      split; [destruct (decide (changed = ∅)); [done|by destruct s]|].
      by exists rs, blocks.
  - assert (Hempty : changed = ∅) by (by apply no_keys).
    cbn [orb]. destruct (Nat.ltb 0 (length deleted)) eqn:Hd.
    + assert (Hne : deleted <> []).
      { intros Habs. apply no_paths in Habs. congruence. }
      rewrite exec_bind.
      assert (Hwhen : forall m : Async FileSystemTree unit,
                exec answer
                  (when (match v with part_003 => false | part_002 => false end) m) s e
                = (s, e, [], inl tt)).
      { intros m. unfold when. by destruct v. }
      rewrite Hwhen.
      destruct (exec_sync deleted changed (files p) s e) as (e' & rs & blocks & -> & Hrs & Hb).
      cbn [outcome finalState trace fst snd app].
      split; [done|]. split; [done|]. split; [done|].
      intros _ _. split; [by destruct s|]. split; [by destruct s|].
      split; [destruct v; [by destruct s|];
              destruct (decide (changed = ∅)); [by destruct s|done]|].
      by exists rs, blocks.
    + apply no_paths in Hd. cbn [exec outcome].
      split; [done|]. split; [done|]. split; [done|].
      intros _ [?|?]; done.
Qed.


End FileSync.


End PreviewSync.

(** ** More on the step indicator *)

Module PreviewSteps.
Import Preview PreviewFacts.

Lemma debounceReport_step (cb : bool) (s : Component) :
  currentStep (debounceReport cb s) = currentStep s /\
  initialLoadCompleteRef (debounceReport cb s) = initialLoadCompleteRef s.
Proof. unfold debounceReport. by destruct s as [? ? ? ? [id|] ? ? ? ? ? ? ? ? ? ?]. Qed.

Lemma appendToBuffer_step (text : string) (s : Component) :
  currentStep (appendToBuffer text s) = currentStep s /\
  initialLoadCompleteRef (appendToBuffer text s) = initialLoadCompleteRef s.
Proof.
  unfold appendToBuffer. destruct s. cbn [errorBuffer set_errorBuffer].
  by destruct (Nat.ltb _ _).
Qed.

(** Once the first load is complete, a chunk of output moves the step
    indicator nowhere. *)
Lemma processLog_step (cb : bool) (data : string) (s : Component) :
  initialLoadCompleteRef s = true ->
  currentStep (processLog cb data s) = currentStep s /\
  initialLoadCompleteRef (processLog cb data s) = true.
Proof.
  intros Hdone. unfold processLog. cbn zeta.
  assert (H1 : currentStep (onCompiling data s) = currentStep s /\
               initialLoadCompleteRef (onCompiling data s) = true).
  { unfold onCompiling. rewrite Hdone. cbn [negb]. by destruct (Text.includes _ _). }
  set (s1 := onCompiling data s) in *. destruct H1 as [Hs1 Hd1].
  assert (H2 : currentStep (onCompiled data s1) = currentStep s1 /\
               initialLoadCompleteRef (onCompiled data s1) = true).
  { unfold onCompiled. destruct (_ || _); [|done]. cbn zeta.
    destruct (Text.capture_after _ _ _ _); by destruct s1. }
  set (s2 := onCompiled data s1) in *. destruct H2 as [Hs2 Hd2].
  assert (H3 : currentStep (onFastRefreshRebuilding data s2) = currentStep s2 /\
               initialLoadCompleteRef (onFastRefreshRebuilding data s2) = true).
  { unfold onFastRefreshRebuilding. rewrite Hd2. cbn [negb].
    by destruct (Text.includes _ _). }
  set (s3 := onFastRefreshRebuilding data s2) in *. destruct H3 as [Hs3 Hd3].
  assert (H4 : currentStep (onFastRefreshDone data s3) = currentStep s3 /\
               initialLoadCompleteRef (onFastRefreshDone data s3) = true).
  { unfold onFastRefreshDone. destruct (Text.includes _ _); [|done]. cbn zeta.
    destruct (Text.capture_after _ _ _ _); destruct s3; cbn in *; done. }
  set (s4 := onFastRefreshDone data s3) in *. destruct H4 as [Hs4 Hd4].
  assert (H5 : currentStep (onReady data s4) = currentStep s4 /\
               initialLoadCompleteRef (onReady data s4) = true).
  { unfold onReady. destruct (Text.includes _ _); [|done]. cbn zeta.
    destruct (Text.capture_after _ _ _ _); by destruct s4. }
  set (s5 := onReady data s4) in *. destruct H5 as [Hs5 Hd5].
  unfold onError. destruct (Text.errorRegex data).
  - destruct (debounceReport_step cb (appendToBuffer data s5)) as (-> & ->).
    destruct (appendToBuffer_step data s5) as (-> & ->).
    by rewrite Hs5, Hs4, Hs3, Hs2, Hs1.
  - by rewrite Hs5, Hs4, Hs3, Hs2, Hs1.
Qed.

(** Timers that fire move the step indicator nowhere but to ["ready"]. *)
Lemma elapse_step (ms : N) (s : Component) :
  (currentStep (elapse ms s) = currentStep s \/ currentStep (elapse ms s) = ready) /\
  initialLoadCompleteRef (elapse ms s) = initialLoadCompleteRef s.
Proof.
  unfold elapse. cbn zeta.
  set (fired := dueTimers _). clearbody fired.
  set (s1 := set_timers _ _).
  assert (Hs1 : currentStep s1 = currentStep s /\
                initialLoadCompleteRef s1 = initialLoadCompleteRef s)
    by (subst s1; by destruct s).
  destruct Hs1 as (<- & <-). clearbody s1. clear s. revert s1.
  induction fired as [|t rest IH]; intros s1; [by split; [left|]|].
  cbn [fold_left]. destruct (IH (runCallback (callback t) s1)) as [Hstep Hdone].
  rewrite Hdone. destruct (callback t) as [[]|]; destruct s1; cbn in *; split; try done.
  all: destruct Hstep as [-> | ->]; auto.
Qed.

(** X18.  In part_003, once the first load is complete, no output and no
    timer moves the step indicator to ["compiling"]: after any output
    and silence the first load is still complete and the step is the one
    it was or ["ready"]. *)
Theorem compiling_overlay_only_before_first_load
    (evs : list Feed) (s : Component) :
  initialLoadCompleteRef s = true ->
  let s' := fold_left (feed part_003) evs s in
  initialLoadCompleteRef s' = true /\
  (currentStep s' = currentStep s \/ currentStep s' = ready).
Proof.
  revert s. induction evs as [|ev evs IH]; intros s Hdone; [by split; [|left]|].
  cbn [fold_left]. cbn zeta.
  assert (Hev : initialLoadCompleteRef (feed part_003 s ev) = true /\
                (currentStep (feed part_003 s ev) = currentStep s \/
                 currentStep (feed part_003 s ev) = ready)).
  { destruct ev as [cb text|ms]; cbn [feed scanner].
    - destruct (processLog_step cb text s Hdone) as (-> & ->). by split; [|left].
    - destruct (elapse_step ms s) as (Hstep & ->). by split. }
  destruct Hev as [Hdone1 Hstep1].
  destruct (IH _ Hdone1) as [Hdone2 Hstep2]. split; [done|].
  destruct Hstep2 as [-> | ->]; [|by right]. done.
Qed.

Lemma compiling_overlay_only_before_first_load_witness :
  let s := fold_left (feed part_003) [written true "Ready in 1.2s"] (mountComponent ∅) in
  initialLoadCompleteRef s = true /\
  let s' := fold_left (feed part_003)
              [written true "Compiling /about ..."; written true "[Fast Refresh] rebuilding"]
              s in
  initialLoadCompleteRef s' = true /\
  (currentStep s' = currentStep s \/ currentStep s' = ready).
Proof.
  cbn zeta. split; [vm_compute; reflexivity|].
  apply (compiling_overlay_only_before_first_load
           [written true "Compiling /about ..."; written true "[Fast Refresh] rebuilding"]
           (fold_left (feed part_003) [written true "Ready in 1.2s"] (mountComponent ∅))).
  vm_compute; reflexivity.
Defined.

Section Frame.

Context {FileSystemTree : Type}.
Context (transformFlatMapToWebContainer : FileMap -> FileSystemTree).

(** X17.  A chunk of output and the passing of time write none of the
    cells the setup effect owns (the flag, the setup error, the
    completion), start no attempt and issue no call. *)
Theorem output_and_timers_leave_the_setup_alone
    (v : Variant) (w : World FileSystemTree) (ev : Event FileSystemTree) :
  match ev with
  | output _ _ | timePasses _ =>
      let w' := step transformFlatMapToWebContainer v w ev in
      setupCells (component w') = setupCells (component w) /\
      inFlight w' = inFlight w /\ issued w' = issued w
  | effectRuns _ | settles _ _ => True
  end.
Proof.
  destruct ev as [p|i a|proc chunk|ms]; try done; cbn [step component inFlight issued].
  - split; [apply deliver_setupCells|done].
  - split; [apply elapse_setupCells|done].
Qed.

End Frame.
End PreviewSteps.

(** ** Concrete runs *)

Module Runs.
Import Preview Scenario.

(** The failed-install scenario of the spec, in both variants: mount,
    install, exit code 1, and the attempt ends failed. *)
Example failed_install_run (v : Variant) :
  let r := exec emptySandbox (attempt id v devProps) (mountComponent project) tt in
  trace r =
    [readFile_obs "/package.json" (Rejected (ErrorObject "ENOENT: no such file or directory"));
     mount_obs project (Resolved tt);
     readdir_obs "/" (Resolved []);
     spawn_obs "pnpm" ["install"; "--prefer-offline"] (Resolved (mkProcess 1));
     exit_obs (mkProcess 1) (Resolved 1%Z)] /\
  outcome r = inl tt /\
  setupError (finalState r) = Some "Failed to install dependencies. Exit code: 1" /\
  setupStartedRef (finalState r) = false /\
  setupComplete (finalState r) = false.
Proof. destruct v; vm_compute; repeat split; reflexivity. Qed.

(** Against the warm sandbox nothing is mounted or installed: the dev
    server is started right after the two probes. *)
Example warm_sandbox_run (v : Variant) :
  let r := exec warmSandbox (attempt id v devProps) (mountComponent project) tt in
  trace r =
    [readFile_obs "/package.json" (Resolved "{}");
     readdir_obs "/" (Resolved [mkDirent "node_modules" true; mkDirent "package.json" false]);
     spawn_obs "pnpm" ["run"; "dev"] (Resolved (mkProcess 2))] /\
  outcome r = inl tt /\
  setupError (finalState r) = None /\
  setupComplete (finalState r) = true /\
  currentStep (finalState r) = ready.
Proof. destruct v; vm_compute; repeat split; reflexivity. Qed.

(** The edit of the happy-path scenario: one sync cycle creates the
    parent directory and writes the edited file, nothing else, and the
    snapshot advances. *)
Example single_edit_sync_run (v : Variant) :
  let r := exec warmSandbox (fileSync v editedProps) (mountComponent project) tt in
  trace r = [mkdir_obs "src" (Resolved tt); writeFile_obs "src/a.js" "v2" (Resolved tt)] /\
  outcome r = inl tt /\
  prevFilesRef (finalState r) = edited.
Proof. destruct v; vm_compute; repeat split; reflexivity. Qed.

(** Three runs of the setup effect in a row issue one call, the manifest
    probe, and leave one attempt in flight. *)
Example triple_trigger_run (v : Variant) :
  let w := fold_left (step id v)
             [effectRuns devProps; effectRuns devProps; effectRuns devProps]
             (mountWorld project) in
  issued w = [fs_readFile "/package.json"] /\
  length (inFlight w) = 1 /\
  setupStartedRef (component w) = true.
Proof. destruct v; vm_compute; repeat split; reflexivity. Qed.

End Runs.
